(** * ext/openssl/ossl.c: the native/managed boundary of the OpenSSL binding

    A shallow embedding of [string2hex], [ossl_x509_ary2sk],
    [ossl_pem_passwd_cb], [ossl_verify_cb], [ossl_raise] and
    [ossl_debug_set], with the properties the specification states about
    them.  C [int]s are [Z] with the wrap-around written out, [char]s are
    [ascii], a Ruby [VALUE] is the tagged machine word of ruby.h, native
    memory is a finite map from addresses to cells. *)

From Stdlib Require Import ZArith Lia List Ascii String.
From stdpp Require Import base option list gmap.

Local Open Scope Z_scope.

(** ** C integers and characters *)

Definition INT_MAX : Z := 2 ^ 31 - 1.
Definition INT_MIN : Z := - 2 ^ 31.

(** Two's complement wrap-around of a 32-bit [int]. *)
Definition wrap_int (z : Z) : Z := (z + 2 ^ 31) mod 2 ^ 32 - 2 ^ 31.

(** Conversion of an [int] to [size_t] (LP64: 64 bits). *)
Definition to_size_t (z : Z) : Z := z mod 2 ^ 64.

(** [(unsigned char)c] *)
Definition uchar (c : ascii) : Z := Z.of_N (N_of_ascii c).

(** Integer promotion of a plain [char]; whether plain [char] is signed is
    implementation-defined. *)
Definition char_to_int (char_is_signed : bool) (c : ascii) : Z :=
  if char_is_signed && (128 <=? uchar c) then uchar c - 256 else uchar c.

Definition NUL : ascii := Ascii.zero.

Definition cstr (s : string) : list ascii := list_ascii_of_string s.

(** ** Ruby values

    Modelled from the spec: ruby.h is not among the sources at hand.  The
    exact true value, the false value and the nil "no override" sentinel
    are distinct words; they are given the values they have in Ruby 1.8,
    where immediates are tagged words ([Qfalse] is the zero word, a
    Fixnum is odd) and everything else is the address of a heap object. *)

Definition VALUE : Type := Z.
Definition Qfalse : VALUE := 0.
Definition Qtrue : VALUE := 2.
Definition Qnil : VALUE := 4.
Definition INT2FIX (n : Z) : VALUE := 2 * n + 1.
Definition NIL_P (v : VALUE) : bool := v =? Qnil.
Definition RTEST (v : VALUE) : bool := negb (Z.land v (Z.lnot Qnil) =? 0).

(** Exception classes the file raises. *)
Inductive rclass :=
| eOSSLError | eX509CertError | rb_eTypeError | rb_eRuntimeError
| rb_eOther (name : string).

(** A raised Ruby exception: its class and the message text. *)
Record exn := Exn { exn_class : rclass; exn_message : list ascii }.

(** ** Outcomes of a C function of the extension *)

Inductive fault :=
| OutOfBoundsWrite (off : Z)      (* a store outside the object *)
| OutOfBoundsRead (off : Z)       (* a load outside the object *)
| UninitializedRead (off : Z)     (* a load of an indeterminate byte *)
| InvalidPointer (p : nat).       (* use of an address that is not live *)

Inductive res (A : Type) :=
| Val (a : A)                     (* the function returned *)
| Raised (e : exn)                (* a Ruby exception unwinds (longjmp) *)
| Fault (f : fault).              (* undefined behaviour *)
Arguments Val {A} a.
Arguments Raised {A} e.
Arguments Fault {A} f.

Definition res_bind {A B} (x : res A) (k : A -> res B) : res B :=
  match x with
  | Val a => k a
  | Raised e => Raised e
  | Fault f => Fault f
  end.

#[global] Instance res_mbind : MBind res := fun A B k x => res_bind x k.
#[global] Instance res_mret : MRet res := fun A a => Val a.

(** ** Byte arrays: [None] is an indeterminate (never written) byte *)

Abbreviation block := (list (option ascii)).

Definition zlength {A} (l : list A) : Z := Z.of_nat (length l).

Definition read {A} (l : list A) (i : Z) : res A :=
  if i <? 0 then Fault (OutOfBoundsRead i)
  else match l !! Z.to_nat i with
       | Some c => Val c
       | None => Fault (OutOfBoundsRead i)
       end.

Definition store (b : block) (i : Z) (c : ascii) : res block :=
  if (0 <=? i) && (i <? zlength b)
  then Val (<[Z.to_nat i := Some c]> b)
  else Fault (OutOfBoundsWrite i).

(** Consecutive stores of [cs] starting at offset [off]. *)
Fixpoint store_all (b : block) (off : Z) (cs : list ascii) : res block :=
  match cs with
  | [] => Val b
  | c :: cs' => b' ← store b off c; store_all b' (off + 1) cs'
  end.

(** Loads of the first [n] bytes of a block, as [rb_exc_new] and [memcpy]
    do from their source. *)
Fixpoint load_all (b : block) (off : Z) (n : nat) : res (list ascii) :=
  match n with
  | O => Val []
  | S n' =>
      oc ← read b off;
      match oc with
      | None => Fault (UninitializedRead off)
      | Some c => cs ← load_all b (off + 1) n'; Val (c :: cs)
      end
  end.

(** ** Native memory *)

Inductive ncell :=
| NBytes (b : block)              (* OPENSSL_malloc'ed bytes *)
| NX509 (der : list ascii)        (* an X509 structure *)
| NStack (elems : list nat).      (* a STACK_OF(X509) *)

Definition NULL : nat := 0%nat.

(** [room] is the number of allocations the allocator can still satisfy. *)
Record nheap := Heap { cells : gmap nat ncell; room : nat }.

Definition fresh_addr (h : nheap) : nat := fresh ({[NULL]} ∪ dom (cells h)).

(** Allocation: [NULL] when memory is exhausted. *)
Definition alloc (c : ncell) (h : nheap) : nat * nheap :=
  match room h with
  | O => (NULL, h)
  | S r => let p := fresh_addr h in (p, Heap (<[p := c]> (cells h)) r)
  end.

Definition free (p : nat) (h : nheap) : nheap :=
  match cells h !! p with
  | Some _ => Heap (delete p (cells h)) (S (room h))
  | None => h
  end.

Definition OPENSSL_malloc (n : Z) (h : nheap) : nat * nheap :=
  alloc (NBytes (replicate (Z.to_nat n) None)) h.

(** ** [string2hex] (ossl.c:17-45) *)

Module Hex.

(** [static const char hex[] = "0123456789abcdef"] (with its terminator). *)
Definition hex : list ascii := cstr "0123456789abcdef" ++ [NUL].

(** What the call leaves in its out-parameters: [None] when the parameter
    was not written. *)
Record s2h_out := S2hOut {
  s2h_ret : Z;                    (* the returned int *)
  s2h_hexbuf : option nat;        (* the pointer stored in [*hexbuf] *)
  s2h_hexbuf_len : option Z       (* the int stored in [*hexbuf_len] *)
}.

Section WithChar.
Variable char_is_signed : bool.

(** The [for] loop: [n] iterations are left, [i] is the loop counter. *)
Fixpoint string2hex_loop (n : nat) (i : Z) (buf : list ascii) (out : block)
  : res (Z * block) :=
  match n with
  | O => Val (i, out)
  | S n' =>
      c ← read buf i;
      hi ← read hex (Z.shiftr (uchar c) 4);
      out ← store out (2 * i) hi;
      c ← read buf i;
      lo ← read hex (Z.land (char_to_int char_is_signed c) 15);
      out ← store out (2 * i + 1) lo;
      string2hex_loop n' (i + 1) buf out
  end.

(** [buf] is the memory [buf] points to; [hexbuf] and [hexbuf_len] tell
    whether the out-pointers are non-null. *)
Definition string2hex (buf : list ascii) (buf_len : Z)
    (hexbuf hexbuf_len : bool) (h : nheap) : res (s2h_out * nheap) :=
  let len := wrap_int (2 * buf_len) in
  if (buf_len <? 0) || (len <? buf_len) then
    Val (S2hOut (-1) None None, h)
  else if negb hexbuf then
    Val (S2hOut len None (if hexbuf_len then Some len else None), h)
  else
    let '(p, h) := OPENSSL_malloc (len + 1) h in
    if Nat.eqb p NULL then Val (S2hOut (-1) (Some NULL) None, h)
    else
      match cells h !! p with
      | Some (NBytes out) =>
          '(i, out) ← string2hex_loop (Z.to_nat buf_len) 0 buf out;
          out ← store out (2 * i) NUL;
          Val (S2hOut len (Some p) (if hexbuf_len then Some len else None),
               Heap (<[p := NBytes out]> (cells h)) (room h))
      | _ => Fault (InvalidPointer p)
      end.

End WithChar.

(** The lowercase hexadecimal digit of a nibble. *)
Definition hex_digit (n : Z) : ascii :=
  ascii_of_N (Z.to_N (if n <? 10 then 48 + n else 87 + n)).

Definition hi_nibble (c : ascii) : Z := uchar c / 16.
Definition lo_nibble (c : ascii) : Z := uchar c mod 16.

(** The text the encoder is to produce for a byte sequence. *)
Definition hex_text (b : list ascii) : list ascii :=
  flat_map (fun c => [hex_digit (hi_nibble c); hex_digit (lo_nibble c)]) b.

(** The reader of hexadecimal text the round trip is stated with. *)
Definition hex_value (c : ascii) : option Z :=
  let n := uchar c in
  if (48 <=? n) && (n <=? 57) then Some (n - 48)
  else if (97 <=? n) && (n <=? 102) then Some (n - 87)
  else None.

Fixpoint hex_decode (s : list ascii) : option (list ascii) :=
  match s with
  | [] => Some []
  | h :: l :: s' =>
      match hex_value h, hex_value l, hex_decode s' with
      | Some a, Some b, Some r => Some (ascii_of_N (Z.to_N (16 * a + b)) :: r)
      | _, _, _ => None
      end
  | _ => None
  end.

End Hex.

(** ** The monad of the C functions: state passing with the three outcomes *)

Definition ST (S A : Type) : Type := S -> res A * S.

Definition ST_bind {S A B} (c : ST S A) (k : A -> ST S B) : ST S B :=
  fun s =>
    match c s with
    | (Val a, s') => k a s'
    | (Raised e, s') => (Raised e, s')
    | (Fault f, s') => (Fault f, s')
    end.

#[global] Instance ST_mbind {S} : MBind (ST S) := fun A B k c => ST_bind c k.
#[global] Instance ST_mret {S} : MRet (ST S) := fun A a s => (Val a, s).

Definition lift {S A} (r : res A) : ST S A := fun s => (r, s).
Definition get_state {S} : ST S S := fun s => (Val s, s).
Definition modify {S} (f : S -> S) : ST S unit := fun s => (Val tt, f s).
Definition rb_exc_raise {S A} (e : exn) : ST S A := fun s => (Raised e, s).

(** Modelled from the spec: [rb_protect(f, arg, &state)] of the
    interpreter (eval.c, not among the sources at hand) invokes the
    closure under an exception barrier; an exception raised by the call
    is captured instead of unwinding further, and the call itself never
    raises.  [inr e] stands for a nonzero [state]. *)
Definition rb_protect {S A} (c : ST S A) : ST S (A + exn) :=
  fun s =>
    match c s with
    | (Val a, s') => (Val (inl a), s')
    | (Raised e, s') => (Val (inr e), s')
    | (Fault f, s') => (Fault f, s')
    end.

(** Modelled from the spec: [rb_ensure(body, ..., cleanup, ...)] of the
    interpreter (eval.c, not among the sources at hand) runs [body] and,
    whether [body] returns or raises, runs [cleanup] exactly once before
    the outcome of [body], return or exception, is delivered to the
    caller: an exception of [body] goes on unwinding. *)
Definition rb_ensure {S A} (body : ST S A) (cleanup : ST S unit) : ST S A :=
  fun s =>
    match body s with
    | (Val a, s') =>
        match cleanup s' with
        | (Val _, s'') => (Val a, s'')
        | (Raised e, s'') => (Raised e, s'')
        | (Fault f, s'') => (Fault f, s'')
        end
    | (Raised e, s') =>
        match cleanup s' with
        | (Val _, s'') => (Raised e, s'')
        | (Raised e', s'') => (Raised e', s'')
        | (Fault f, s'') => (Fault f, s'')
        end
    | (Fault f, s') => (Fault f, s')
    end.

(** ** Process-wide state *)

Inductive event :=
| MemCtrl (on : bool)             (* CRYPTO_mem_ctrl(CRYPTO_MEM_CHECK_ON / _OFF) *)
| Stderr (text : string)          (* fprintf(stderr, ...) *)
| Warning (fmt : string) (args : list Z).  (* rb_warning(fmt, ...) *)

Record world := World {
  dOSSL : VALUE;                  (* the debug flag *)
  err_queue : list Z;             (* the error queue of the native library, oldest first *)
  heap : nheap;                   (* native memory *)
  events : list event             (* what was emitted, oldest first *)
}.

Definition set_dOSSL (v : VALUE) (w : world) : world :=
  World v (err_queue w) (heap w) (events w).
Definition set_err_queue (q : list Z) (w : world) : world :=
  World (dOSSL w) q (heap w) (events w).
Definition set_heap (h : nheap) (w : world) : world :=
  World (dOSSL w) (err_queue w) h (events w).
Definition emit (e : event) (w : world) : world :=
  World (dOSSL w) (err_queue w) (heap w) (events w ++ [e]).

Definition M : Type -> Type := ST world.

(** ** [ossl_raise] (ossl.c:220-245) *)

(** [ERR_get_error()]: removes and returns the earliest entry of the
    error queue, 0 when the queue is empty. *)
Definition ERR_get_error : M Z :=
  fun w =>
    match err_queue w with
    | [] => (Val 0, w)
    | e :: q => (Val e, set_err_queue q w)
    end.

Definition ERR_clear_error : M unit := modify (set_err_queue []).

(** C99 [snprintf(dst + off, size, "%s", text)] into the array [dst]: at
    most [size - 1] characters and a terminator are stored, nothing when
    [size] is 0; the result is the length of the whole text. *)
Definition snprintf (dst : block) (off : Z) (size : Z) (text : list ascii)
  : res (block * Z) :=
  if size =? 0 then Val (dst, zlength text)
  else
    let n := Z.min (zlength text) (size - 1) in
    dst' ← store_all dst off (take (Z.to_nat n) text ++ [NUL]);
    Val (dst', zlength text).

(** [rb_exc_new(exc, buf, len)]: the message is a copy of [len] bytes. *)
Definition rb_exc_new (exc : rclass) (buf : block) (len : Z) : res exn :=
  msg ← load_all buf 0 (Z.to_nat len);
  Val (Exn exc msg).

Section ErrorChannel.

(** [BUFSIZ] of <stdio.h>, and the two message functions of the native
    library. *)
Variable BUFSIZ : Z.
Variable ERR_error_string : Z -> list ascii.
Variable ERR_reason_error_string : Z -> list ascii.

(** The formatting part of [ossl_raise]: the local array [buf] and the
    [len] that are handed to [rb_exc_new].  [fmt] is [None] for a null
    format; otherwise it holds the text that the format and its arguments
    render to, which is what [vsnprintf] measures and stores. *)
Definition ossl_raise_format (fmt : option (list ascii)) : M (block * Z) :=
  let buf : block := replicate (Z.to_nat BUFSIZ) None in
  e ← ERR_get_error;
  let len := 0 in
  '(buf, len) ←
    match fmt with
    | Some text =>
        lift ('(buf, n) ← snprintf buf 0 (to_size_t BUFSIZ) text;
              let len := n in
              '(buf, n) ← snprintf buf len (to_size_t (BUFSIZ - len)) (cstr ": ");
              Val (buf, len + n))
    | None => mret (buf, len)
    end;
  if negb (e =? 0) then
    w ← get_state;
    let msg := if dOSSL w =? Qtrue           (* FULL INFO *)
               then ERR_error_string e
               else ERR_reason_error_string e in
    _ ← ERR_clear_error;
    '(buf, n) ← lift (snprintf buf len (to_size_t (BUFSIZ - len)) msg);
    mret (buf, len + n)
  else mret (buf, len).

Definition ossl_raise {A} (exc : rclass) (fmt : option (list ascii)) : M A :=
  '(buf, len) ← ossl_raise_format fmt;
  x ← lift (rb_exc_new exc buf len);
  rb_exc_raise x.

End ErrorChannel.

(** ** [ossl_debug_set] (ossl.c:274-290) *)

Definition CRYPTO_mem_ctrl (on : bool) : M unit := modify (emit (MemCtrl on)).
Definition fprintf_stderr (text : string) : M unit := modify (emit (Stderr text)).

Definition ossl_debug_get : M VALUE := fun w => (Val (dOSSL w), w).

Definition ossl_debug_set (val : VALUE) : M VALUE :=
  w ← get_state;
  let old := dOSSL w in
  _ ← modify (set_dOSSL val);
  w ← get_state;
  _ ← (if negb (old =? dOSSL w) then
         if dOSSL w =? Qtrue then
           _ ← CRYPTO_mem_ctrl true;
           fprintf_stderr "OSSL_DEBUG: IS NOW ON!
"
         else if old =? Qtrue then
           _ ← CRYPTO_mem_ctrl false;
           fprintf_stderr "OSSL_DEBUG: IS NOW OFF!
"
         else mret tt
       else mret tt);
  mret val.

(** ** [ossl_debug] (ossl.c:252-266)

    [text] is what the format and its arguments render to. *)
Definition ossl_debug (text : string) : M unit :=
  w ← get_state;
  if dOSSL w =? Qtrue then
    _ ← fprintf_stderr "OSSL_DEBUG: ";
    _ ← fprintf_stderr text;
    fprintf_stderr " [CONTEXT N/A]
"
  else mret tt.

(** ** Ruby heap objects, as far as this file looks into them *)

Inductive robj :=
| RString (bytes : list ascii)    (* T_STRING: RSTRING(v)->ptr, ->len *)
| RArray (elts : list VALUE)      (* T_ARRAY *)
| RX509Cert (x509 : nat)          (* an instance of cX509Cert wrapping a native X509 *)
| RObject.                        (* anything else *)

(** ** [ossl_pem_passwd_cb] (ossl.c:113-155) *)

(** What one run of the block does when it is yielded a value: it returns
    a value or raises. *)
Inductive yield := Yields (v : VALUE) | YieldRaises (e : exn).

Definition rb_warning (fmt : string) (args : list Z) : M unit :=
  modify (emit (Warning fmt args)).

(** [memcpy(dst, src, n)] *)
Definition memcpy (dst : block) (src : list ascii) (n : Z) : res block :=
  if zlength src <? n then Fault (OutOfBoundsRead (zlength src))
  else store_all dst 0 (take (Z.to_nat n) src).

Section Passphrase.

(** The Ruby heap (this file only reads it). *)
Variable objspace : VALUE -> option robj.

(** [PEM_def_callback] of the native library. *)
Variable PEM_def_callback : block -> Z -> Z -> option (list ascii) -> M (Z * block).

(** Modelled from the spec: [SafeStringValue] is a macro of ruby.h,
    which is not among the sources at hand.  What the closure returns is
    to be a password, a String, whose length is then validated: a String
    is left as it is, any other value is refused with a TypeError inside
    the protected call (implicit conversion through [to_str] is not
    modelled). *)
Definition SafeStringValue (v : VALUE) : M VALUE :=
  match objspace v with
  | Some (RString _) => mret v
  | _ => rb_exc_raise (Exn rb_eTypeError (cstr "can't convert into String"))
  end.

(** [rb_yield(flag)] handed the next run of the block. *)
Definition rb_yield (run : VALUE -> yield) (flag : VALUE) : M VALUE :=
  match run flag with
  | Yields v => mret v
  | YieldRaises e => rb_exc_raise e
  end.

Definition ossl_pem_passwd_cb0 (run : VALUE -> yield) (flag : VALUE) : M VALUE :=
  pass ← rb_yield run flag;
  pass ← SafeStringValue pass;
  mret pass.

(** [RSTRING(v)] *)
Definition RSTRING (v : VALUE) : M (list ascii) :=
  match objspace v with
  | Some (RString s) => mret s
  | _ => lift (Fault (InvalidPointer (Z.to_nat v)))
  end.

(** The [while (1)] loop.  [runs] lists what the block does at its
    successive invocations; the result is [None] when they are used up
    and the loop is still asking.  [RSTRING(pass)->len] is a [long] and
    is stored in [int len]: a length above [INT_MAX] wraps around, and
    it is the wrapped value that is tested, handed to [memcpy] (as a
    [size_t]) and returned. *)
Fixpoint passwd_loop (runs : list (VALUE -> yield)) (buf : block)
    (max_len flag : Z) : M (option (Z * block)) :=
  match runs with
  | [] => mret None
  | run :: runs' =>
      let rflag := if flag =? 0 then Qfalse else Qtrue in
      r ← rb_protect (ossl_pem_passwd_cb0 run rflag);
      match r with
      | inr _ => mret (Some (-1, buf))             (* exception was raised. *)
      | inl pass =>
          s ← RSTRING pass;
          let len := wrap_int (zlength s) in       (* [int len] takes a [long] *)
          if len <? 4 then                         (* 4 is OpenSSL hardcoded limit *)
            _ ← rb_warning "password must be longer than 4 bytes" [];
            passwd_loop runs' buf max_len flag
          else if max_len <? len then
            _ ← rb_warning "password must be shorter then %d bytes"
                  [wrap_int (max_len - 1)];
            passwd_loop runs' buf max_len flag
          else
            buf' ← lift (memcpy buf s (to_size_t len));
            mret (Some (len, buf'))
      end
  end.

(** [buf] is the native buffer, [pwd] the direct password if any, [blk]
    the block of the running method if one was given. *)
Definition ossl_pem_passwd_cb (buf : block) (max_len flag : Z)
    (pwd : option (list ascii)) (blk : option (list (VALUE -> yield)))
  : M (option (Z * block)) :=
  match pwd, blk with
  | None, Some runs => passwd_loop runs buf max_len flag
  | _, _ => r ← PEM_def_callback buf max_len flag pwd; mret (Some r)
  end.

End Passphrase.

(** ** [ossl_verify_cb] (ossl.c:160-205) *)

Definition X509_V_OK : Z := 0.
Definition X509_V_ERR_CERT_REJECTED : Z := 28.

(** The native verification context: the ex_data slot [ossl_verify_cb_idx]
    of the context and of its store ([ctx->ctx]), and the error code. *)
Record X509_STORE_CTX := StoreCtx {
  ctx_ex_data : VALUE;
  store_ex_data : VALUE;
  ctx_error : Z
}.

(** The state the callback runs in: the context, and the wrappers that
    have been detached from it. *)
Record vstate := VState { vctx : X509_STORE_CTX; detached : list VALUE }.

Definition X509_STORE_CTX_get_ex_data : ST vstate VALUE :=
  fun s => (Val (ctx_ex_data (vctx s)), s).
Definition X509_STORE_get_ex_data : ST vstate VALUE :=
  fun s => (Val (store_ex_data (vctx s)), s).
Definition X509_STORE_CTX_get_error : ST vstate Z :=
  fun s => (Val (ctx_error (vctx s)), s).
Definition X509_STORE_CTX_set_error (e : Z) : ST vstate unit :=
  modify (fun s =>
    VState (StoreCtx (ctx_ex_data (vctx s)) (store_ex_data (vctx s)) e)
           (detached s)).

(** Modelled from the spec: [ossl_x509stctx_clear_ptr] is defined in
    ossl_x509store.c, which is not among the sources at hand; it
    invalidates the wrapper, detaching it from the native pointer. *)
Definition ossl_x509stctx_clear_ptr (rctx : VALUE) : ST vstate unit :=
  modify (fun s => VState (vctx s) (detached s ++ [rctx])).

Section Verify.

(** [ossl_x509stctx_new] (ossl_x509store.c) builds the wrapper of the
    context; [rb_funcall(proc, rb_intern("call"), 2, a, b)] runs the
    closure.  Both are arbitrary code that may raise and may change the
    context it is given. *)
Variable ossl_x509stctx_new : ST vstate VALUE.
Variable rb_funcall_call : VALUE -> VALUE -> VALUE -> ST vstate VALUE.

Record ossl_verify_cb_args := VerifyArgs {
  args_proc : VALUE;
  args_preverify_ok : VALUE;
  args_store_ctx : VALUE
}.

Definition ossl_call_verify_cb_proc (args : ossl_verify_cb_args) : ST vstate VALUE :=
  rb_funcall_call (args_proc args) (args_preverify_ok args) (args_store_ctx args).

Definition ossl_verify_cb (ok : Z) : ST vstate Z :=
  proc ← X509_STORE_CTX_get_ex_data;
  proc ← (if proc =? 0 then X509_STORE_get_ex_data else mret proc);
  if proc =? 0 then mret ok
  else if negb (NIL_P proc) then
    r ← rb_protect ossl_x509stctx_new;
    let ret := Qfalse in
    ret ← match r with
          | inl rctx =>                              (* !state *)
              let args := VerifyArgs proc (if ok =? 0 then Qfalse else Qtrue) rctx in
              rb_ensure (ossl_call_verify_cb_proc args)
                        (ossl_x509stctx_clear_ptr rctx)
          | inr _ => mret ret
          end;
    if ret =? Qtrue then
      _ ← X509_STORE_CTX_set_error X509_V_OK;
      mret 1
    else
      e ← X509_STORE_CTX_get_error;
      _ ← (if e =? X509_V_OK
           then X509_STORE_CTX_set_error X509_V_ERR_CERT_REJECTED
           else mret tt);
      mret 0
  else mret ok.

End Verify.

(** ** [ossl_x509_ary2sk] (ossl.c:50-78) *)

(** The stack and certificate functions of the native library. *)
Definition sk_X509_new_null : M nat :=
  fun w => let '(p, h) := alloc (NStack []) (heap w) in (Val p, set_heap h w).

Definition X509_free (p : nat) : M unit :=
  modify (fun w => set_heap (free p (heap w)) w).

Definition X509_dup (der : list ascii) : M nat :=
  fun w => let '(p, h) := alloc (NX509 der) (heap w) in (Val p, set_heap h w).

Fixpoint for_each (f : nat -> M unit) (l : list nat) : M unit :=
  match l with
  | [] => mret tt
  | p :: l' => _ ← f p; for_each f l'
  end.

(** [sk_X509_pop_free(sk, func)]: [func] on every element, then the stack
    itself is released. *)
Definition sk_X509_pop_free (sk : nat) (func : nat -> M unit) : M unit :=
  w ← get_state;
  match cells (heap w) !! sk with
  | Some (NStack elems) =>
      _ ← for_each func elems;
      modify (fun w => set_heap (free sk (heap w)) w)
  | _ => lift (Fault (InvalidPointer sk))
  end.

(** [sk_X509_push(sk, x)]: [x] becomes the last element. *)
Definition sk_X509_push (sk x : nat) : M unit :=
  w ← get_state;
  match cells (heap w) !! sk with
  | Some (NStack elems) =>
      modify (fun w =>
        set_heap (Heap (<[sk := NStack (elems ++ [x])]> (cells (heap w)))
                       (room (heap w))) w)
  | _ => lift (Fault (InvalidPointer sk))
  end.

Section Convert.

Variable BUFSIZ : Z.
Variable ERR_error_string : Z -> list ascii.
Variable ERR_reason_error_string : Z -> list ascii.
Variable objspace : VALUE -> option robj.

Definition ossl_raise_ {A} (exc : rclass) (fmt : option (list ascii)) : M A :=
  ossl_raise BUFSIZ ERR_error_string ERR_reason_error_string exc fmt.

(** [Check_Type(ary, T_ARRAY)] *)
Definition Check_Type_ARRAY (ary : VALUE) : M (list VALUE) :=
  match objspace ary with
  | Some (RArray elts) => mret elts
  | _ => rb_exc_raise (Exn rb_eTypeError (cstr "wrong argument type (expected Array)"))
  end.

(** [rb_obj_is_kind_of(val, cX509Cert)] *)
Definition is_X509Cert (val : VALUE) : bool :=
  match objspace val with
  | Some (RX509Cert _) => true
  | _ => false
  end.

(** Modelled from the spec: [DupX509CertPtr] is defined in
    ossl_x509cert.c, which is not among the sources at hand; it duplicates
    the certificate object into a new independently-owned native
    certificate value.  A wrapper without a native certificate, and a
    duplication the allocator cannot satisfy, raise. *)
Definition DupX509CertPtr (val : VALUE) : M nat :=
  match objspace val with
  | Some (RX509Cert x509) =>
      w ← get_state;
      match cells (heap w) !! x509 with
      | Some (NX509 der) =>
          new ← X509_dup der;
          if Nat.eqb new NULL then ossl_raise_ eX509CertError None else mret new
      | _ => ossl_raise_ rb_eRuntimeError (Some (cstr "CERT wasn't initialized!"))
      end
  | _ => ossl_raise_ rb_eTypeError (Some (cstr "wrong argument"))
  end.

(** The [for] loop over the elements that are still to be visited. *)
Fixpoint ary2sk_loop (sk : nat) (elts : list VALUE) : M unit :=
  match elts with
  | [] => mret tt
  | val :: elts' =>
      _ ← (if negb (is_X509Cert val) then
             _ ← sk_X509_pop_free sk X509_free;
             ossl_raise_ eOSSLError (Some (cstr "object except X509 cert is in array"))
           else mret tt);
      x509 ← DupX509CertPtr val;                 (* NEED TO DUP *)
      _ ← sk_X509_push sk x509;
      ary2sk_loop sk elts'
  end.

Definition ossl_x509_ary2sk (ary : VALUE) : M nat :=
  elts ← Check_Type_ARRAY ary;
  sk ← sk_X509_new_null;
  _ ← (if Nat.eqb sk NULL then ossl_raise_ eOSSLError None else mret tt);
  _ ← ary2sk_loop sk elts;
  mret sk.

(** [*status] is nonzero exactly for [inr]. *)
Definition ossl_protect_x509_ary2sk (ary : VALUE) : M (nat + exn) :=
  rb_protect (ossl_x509_ary2sk ary).

End Convert.

(** ** Notions the properties are stated with *)

(** The closure the callback resolves: the association of the context,
    and when there is none that of its store. *)
Definition resolved_proc (c : X509_STORE_CTX) : VALUE :=
  if ctx_ex_data c =? 0 then store_ex_data c else ctx_ex_data c.

Definition with_error (e : Z) (s : vstate) : vstate :=
  VState (StoreCtx (ctx_ex_data (vctx s)) (store_ex_data (vctx s)) e) (detached s).

Definition with_detached (rctx : VALUE) (s : vstate) : vstate :=
  VState (vctx s) (detached s ++ [rctx]).

(** The error code a rejection leaves: the generic code when none was
    recorded, the recorded one otherwise. *)
Definition rejected (s : vstate) : vstate :=
  if ctx_error (vctx s) =? X509_V_OK
  then with_error X509_V_ERR_CERT_REJECTED s else s.

(** The text the native library gives for the error entry [e]: the full
    diagnostic text (code and library, function and reason names) when
    the flag is exactly [Qtrue], the short reason string otherwise. *)
Definition native_text (full reason : Z -> list ascii) (flag : VALUE) (e : Z)
  : list ascii :=
  if flag =? Qtrue then full e else reason e.

(** A native library whose every entry reads as the ASN.1 "wrong tag"
    error, and an idle process; the examples run on them. *)
Definition sample_error_string (e : Z) : list ascii :=
  cstr "error:0D0680A8:asn1 encoding routines:ASN1_CHECK_TLEN:wrong tag".
Definition sample_reason_error_string (e : Z) : list ascii := cstr "wrong tag".
Definition idle : world := World Qfalse [] (Heap ∅ 0) [].

(** The boolean the block is handed: true for a nonzero [flag]. *)
Definition rflag_of (flag : Z) : VALUE := if flag =? 0 then Qfalse else Qtrue.

(** The password a protected run of the block delivers: none when the
    block raises or returns something that is not a String. *)
Definition password_of (objspace : VALUE -> option robj)
    (run : VALUE -> yield) (rflag : VALUE) : option (list ascii) :=
  match run rflag with
  | Yields v =>
      match objspace v with
      | Some (RString s) => Some s
      | _ => None
      end
  | YieldRaises _ => None
  end.

(** The warning a refused password is answered with; the length that is
    tested is the one [int len] holds. *)
Definition retry_warning (max_len : Z) (s : list ascii) : event :=
  if wrap_int (zlength s) <? 4
  then Warning "password must be longer than 4 bytes" []
  else Warning "password must be shorter then %d bytes" [wrap_int (max_len - 1)].

Definition retry_warning_of (objspace : VALUE -> option robj) (max_len : Z)
    (rflag : VALUE) (run : VALUE -> yield) : event :=
  retry_warning max_len (default [] (password_of objspace run rflag)).

Definition emit_all (evs : list event) (w : world) : world :=
  World (dOSSL w) (err_queue w) (heap w) (events w ++ evs).

(** A small Ruby heap: three strings, an array of two certificates and a
    string, and the certificates wrapping the native certificate at 1. *)
Definition sample_objspace (v : VALUE) : option robj :=
  if v =? 8 then Some (RString (cstr "abc"))
  else if v =? 12 then Some (RString (cstr "secret"))
  else if v =? 16 then Some (RString (cstr "much too long"))
  else if v =? 20 then Some (RX509Cert 1)
  else if v =? 24 then Some (RX509Cert 1)
  else if v =? 28 then Some (RArray [20; 24; 12; 20])
  else None.

Definition sample_PEM_def_callback (buf : block) (max_len flag : Z)
    (pwd : option (list ascii)) : M (Z * block) :=
  mret (0, buf).

(** The converter at work: [sk] is the stack being built on the heap
    [h0] of the entry, [ps] are the duplicates pushed so far, [h] is the
    heap now.  Beside the stack and the duplicates, [h] is [h0]. *)
Definition building (h0 : nheap) (sk : nat) (ps : list nat) (h : nheap) : Prop :=
  cells h !! sk = Some (NStack ps) /\
  cells h0 !! sk = None /\
  NoDup ps /\
  (forall p, p ∈ ps ->
     cells h0 !! p = None /\ exists der, cells h !! p = Some (NX509 der)) /\
  (forall i, i ≠ sk -> i ∉ ps -> cells h !! i = cells h0 !! i) /\
  (room h + S (length ps) = room h0)%nat.

(** The text of the complaint about an element that is no certificate. *)
Definition not_a_cert_text : list ascii :=
  cstr "object except X509 cert is in array".

(** A process whose native heap holds one certificate, at address 1, and
    has room for three allocations. *)
Definition cert_world : world :=
  World Qfalse [] (Heap {[1%nat := NX509 (cstr "DER")]} 3) [].

(** Whether the leak instrumentation of the allocator is on after the
    emitted events: the last [CRYPTO_mem_ctrl] decides, and it is off at
    the start of the process. *)
Definition mem_check (evs : list event) : bool :=
  foldl (fun on e => match e with MemCtrl b => b | _ => on end) false evs.

(** The calls [OpenSSL.debug = v] for the values of a list, in order. *)
Fixpoint debug_set_all (vals : list VALUE) : M unit :=
  match vals with
  | [] => mret tt
  | v :: vals' => _ ← ossl_debug_set v; debug_set_all vals'
  end.

(** The characters of [hex], terminator apart. *)
Definition is_hex_digit (c : ascii) : bool :=
  let n := uchar c in
  ((48 <=? n) && (n <=? 57)) || ((97 <=? n) && (n <=? 102)).

(** [strlen]: the number of bytes before the first terminator of a block
    whose bytes are all determinate up to there; [None] when there is no
    terminator. *)
Fixpoint strlen (b : block) : option Z :=
  match b with
  | [] => None
  | None :: _ => None
  | Some c :: b' =>
      if Ascii.eqb c NUL then Some 0
      else match strlen b' with
           | Some n => Some (n + 1)
           | None => None
           end
  end.



(** What precedes the native message: the rendered prefix and the
    separator, nothing for a null format. *)
Definition prefix_text (fmt : option (list ascii)) : list ascii :=
  match fmt with
  | Some p => p ++ cstr ": "
  | None => []
  end.

(** The small Ruby heap with one more object, an array of the two
    certificates. *)
Definition cert_array_objspace (v : VALUE) : option robj :=
  if v =? 32 then Some (RArray [20; 24]) else sample_objspace v.

(** * Properties *)

(** ** The verification callback *)

Section VerifyFacts.

Variable ossl_x509stctx_new : ST vstate VALUE.
Variable rb_funcall_call : VALUE -> VALUE -> VALUE -> ST vstate VALUE.

Local Abbreviation verify_cb := (ossl_verify_cb ossl_x509stctx_new rb_funcall_call).

Lemma verify_cb_unfold ok s :
  resolved_proc (vctx s) ≠ 0 -> resolved_proc (vctx s) ≠ Qnil ->
  verify_cb ok s =
  (r ← rb_protect ossl_x509stctx_new;
   ret ← match r with
         | inl rctx =>
             rb_ensure (rb_funcall_call (resolved_proc (vctx s))
                          (if ok =? 0 then Qfalse else Qtrue) rctx)
                       (ossl_x509stctx_clear_ptr rctx)
         | inr _ => mret Qfalse
         end;
   if ret =? Qtrue then
     _ ← X509_STORE_CTX_set_error X509_V_OK; mret 1
   else
     e ← X509_STORE_CTX_get_error;
     _ ← (if e =? X509_V_OK
          then X509_STORE_CTX_set_error X509_V_ERR_CERT_REJECTED
          else mret tt);
     mret 0) s.
Proof.
  intros H0 Hnil.
  unfold ossl_verify_cb, resolved_proc in *.
  unfold mbind, ST_mbind, ST_bind at 1 2; cbn.
  destruct (ctx_ex_data (vctx s) =? 0) eqn:E; cbn.
  - apply Z.eqb_neq in H0. rewrite H0.
    unfold NIL_P. apply Z.eqb_neq in Hnil. rewrite Hnil. reflexivity.
  - rewrite E. unfold NIL_P. apply Z.eqb_neq in Hnil. rewrite Hnil. reflexivity.
Qed.

(** The wrapper is built, the closure returns exactly [Qtrue]: the error
    code is forced to [X509_V_OK] and the callback returns 1. *)
Lemma verify_cb_accept ok s rctx s1 s2 :
  resolved_proc (vctx s) ≠ 0 -> resolved_proc (vctx s) ≠ Qnil ->
  ossl_x509stctx_new s = (Val rctx, s1) ->
  rb_funcall_call (resolved_proc (vctx s)) (if ok =? 0 then Qfalse else Qtrue)
    rctx s1 = (Val Qtrue, s2) ->
  verify_cb ok s = (Val 1, with_error X509_V_OK (with_detached rctx s2)).
Proof.
  intros H0 Hnil Hnew Hcall. rewrite verify_cb_unfold by assumption.
  unfold mbind, ST_mbind, ST_bind, rb_protect, rb_ensure. rewrite Hnew, Hcall.
  reflexivity.
Qed.

(** The closure returns anything but [Qtrue]: rejection. *)
Lemma verify_cb_reject_value ok s rctx s1 ret s2 :
  resolved_proc (vctx s) ≠ 0 -> resolved_proc (vctx s) ≠ Qnil ->
  ossl_x509stctx_new s = (Val rctx, s1) ->
  rb_funcall_call (resolved_proc (vctx s)) (if ok =? 0 then Qfalse else Qtrue)
    rctx s1 = (Val ret, s2) ->
  ret ≠ Qtrue ->
  verify_cb ok s = (Val 0, rejected (with_detached rctx s2)).
Proof.
  intros H0 Hnil Hnew Hcall Hret. rewrite verify_cb_unfold by assumption.
  unfold mbind, ST_mbind, ST_bind, rb_protect, rb_ensure. rewrite Hnew, Hcall.
  cbn. apply Z.eqb_neq in Hret. rewrite Hret. unfold rejected. cbn.
  destruct (ctx_error (vctx s2) =? X509_V_OK); reflexivity.
Qed.

(** The construction of the wrapper raises: the exception is captured and
    the certificate is rejected. *)
Lemma verify_cb_reject_new ok s e s1 :
  resolved_proc (vctx s) ≠ 0 -> resolved_proc (vctx s) ≠ Qnil ->
  ossl_x509stctx_new s = (Raised e, s1) ->
  verify_cb ok s = (Val 0, rejected s1).
Proof.
  intros H0 Hnil Hnew. rewrite verify_cb_unfold by assumption.
  unfold mbind, ST_mbind, ST_bind, rb_protect. rewrite Hnew.
  cbn. unfold rejected.
  destruct (ctx_error (vctx s1) =? X509_V_OK); reflexivity.
Qed.

(** The closure raises: [rb_ensure] detaches the wrapper and lets the
    exception go on; the callback does not return and sets no error
    code. *)
Lemma verify_cb_closure_raises ok s rctx s1 e s2 :
  resolved_proc (vctx s) ≠ 0 -> resolved_proc (vctx s) ≠ Qnil ->
  ossl_x509stctx_new s = (Val rctx, s1) ->
  rb_funcall_call (resolved_proc (vctx s)) (if ok =? 0 then Qfalse else Qtrue)
    rctx s1 = (Raised e, s2) ->
  verify_cb ok s = (Raised e, with_detached rctx s2).
Proof.
  intros H0 Hnil Hnew Hcall. rewrite verify_cb_unfold by assumption.
  unfold mbind, ST_mbind, ST_bind, rb_protect, rb_ensure. rewrite Hnew, Hcall.
  reflexivity.
Qed.

(** C8: with no association on the context and none on its store, or
    with a resolved closure that is [nil], the callback returns the
    preverify value it was given, whatever it is, and leaves the context
    (its error code included) as it was. *)
Theorem verify_cb_passthrough ok s :
  (ctx_ex_data (vctx s) = 0 /\ store_ex_data (vctx s) = 0) \/
  resolved_proc (vctx s) = Qnil ->
  verify_cb ok s = (Val ok, s).
Proof.
  unfold ossl_verify_cb, resolved_proc.
  unfold mbind, ST_mbind, ST_bind at 1 2; cbn.
  intros [[Hc Hs] | Hnil].
  - rewrite Hc. cbn. rewrite Hs. reflexivity.
  - destruct (ctx_ex_data (vctx s) =? 0) eqn:E; cbn.
    + rewrite Hnil. reflexivity.
    + rewrite Hnil. reflexivity.
Qed.

End VerifyFacts.

(** The two cases the specification lists, on a context without any
    association whose error code is already set. *)
Lemma verify_cb_passthrough_witness :
  let s := VState (StoreCtx 0 0 7) [] in
  ossl_verify_cb (mret 8) (fun _ _ _ => mret Qtrue) 1 s = (Val 1, s) /\
  ossl_verify_cb (mret 8) (fun _ _ _ => mret Qtrue) 0 s = (Val 0, s).
Proof.
  split.
  - apply (verify_cb_passthrough (mret 8) (fun _ _ _ => mret Qtrue) 1
             (VState (StoreCtx 0 0 7) [])).
    left. split; reflexivity.
  - apply (verify_cb_passthrough (mret 8) (fun _ _ _ => mret Qtrue) 0
             (VState (StoreCtx 0 0 7) [])).
    left. split; reflexivity.
Defined.

(** C1: a closure that raises.  The context carries a closure (the object
    at address 40) and no error; the wrapper is built (object 48); the
    closure raises.  The callback does not return [0]: the exception
    leaves it, after the wrapper was detached, and the error code is not
    set to the rejection code. *)
Theorem verify_cb_raising_closure_escapes :
  let boom := Exn rb_eRuntimeError (cstr "boom") in
  ossl_verify_cb (mret 48) (fun _ _ _ => rb_exc_raise boom) 1
    (VState (StoreCtx 40 0 X509_V_OK) [])
  = (Raised boom, VState (StoreCtx 40 0 X509_V_OK) [48]).
Proof. reflexivity. Qed.

(** ** Stores and loads on byte arrays *)

Section MemoryFacts.

Lemma zlength_app {A} (l k : list A) : zlength (l ++ k) = zlength l + zlength k.
Proof. unfold zlength. rewrite length_app. lia. Qed.

Lemma zlength_map {A B} (f : A -> B) (l : list A) : zlength (map f l) = zlength l.
Proof. unfold zlength. now rewrite List.length_map. Qed.

Lemma zlength_nonneg {A} (l : list A) : 0 <= zlength l.
Proof. unfold zlength. lia. Qed.

Lemma read_middle {A} (pre : list A) (x : A) (rest : list A) :
  read (pre ++ x :: rest) (zlength pre) = Val x.
Proof.
  unfold read, zlength.
  destruct (Z.ltb_spec (Z.of_nat (length pre)) 0) as [H|_]; [lia|].
  rewrite Nat2Z.id, list_lookup_middle by reflexivity. reflexivity.
Qed.

Lemma store_middle (pre : block) (x : option ascii) (rest : block) (c : ascii) :
  store (pre ++ x :: rest) (zlength pre) c = Val (pre ++ Some c :: rest).
Proof.
  unfold store. rewrite zlength_app.
  replace ((0 <=? zlength pre) && (zlength pre <? zlength pre + zlength (x :: rest)))
    with true.
  - unfold zlength. rewrite Nat2Z.id.
    rewrite insert_app_r_alt by reflexivity.
    rewrite Nat.sub_diag. reflexivity.
  - symmetry. apply andb_true_iff. split.
    + apply Z.leb_le, zlength_nonneg.
    + apply Z.ltb_lt. unfold zlength; cbn [length]. lia.
Qed.

(** Storing [cs] over as many bytes that follow [pre]. *)
Lemma store_all_middle (cs : list ascii) :
  forall (pre old rest : block),
    length old = length cs ->
    store_all (pre ++ old ++ rest) (zlength pre) cs
    = Val (pre ++ map Some cs ++ rest).
Proof.
  induction cs as [|c cs IH]; intros pre old rest Hlen.
  - destruct old; [reflexivity|discriminate].
  - destruct old as [|x old]; [discriminate|]. cbn [store_all app].
    rewrite store_middle. cbn.
    replace (pre ++ Some c :: old ++ rest) with ((pre ++ [Some c]) ++ old ++ rest)
      by (rewrite <- app_assoc; reflexivity).
    replace (zlength pre + 1) with (zlength (pre ++ [Some c]))
      by (rewrite zlength_app; reflexivity).
    rewrite IH by (cbn in Hlen; lia).
    rewrite <- app_assoc. reflexivity.
Qed.

(** A store that starts past the end of the array. *)
Lemma store_all_outside (b : block) (off : Z) (c : ascii) (cs : list ascii) :
  zlength b <= off ->
  store_all b off (c :: cs) = Fault (OutOfBoundsWrite off).
Proof.
  intros H. cbn [store_all]. unfold store.
  replace ((0 <=? off) && (off <? zlength b)) with false; [reflexivity|].
  symmetry. apply andb_false_iff. right. apply Z.ltb_ge. assumption.
Qed.

Lemma load_all_middle (cs : list ascii) :
  forall (pre rest : block),
    load_all (pre ++ map Some cs ++ rest) (zlength pre) (length cs) = Val cs.
Proof.
  induction cs as [|c cs IH]; intros pre rest; [reflexivity|].
  cbn [load_all length map app].
  rewrite read_middle. cbn.
  replace (pre ++ Some c :: map Some cs ++ rest)
    with ((pre ++ [Some c]) ++ map Some cs ++ rest)
    by (rewrite <- app_assoc; reflexivity).
  replace (zlength pre + 1) with (zlength (pre ++ [Some c]))
    by (rewrite zlength_app; reflexivity).
  rewrite IH. reflexivity.
Qed.

Lemma load_all_prefix (cs : list ascii) (rest : block) :
  load_all (map Some cs ++ rest) 0 (length cs) = Val cs.
Proof. apply (load_all_middle cs [] rest). Qed.

(** [snprintf] of a text that fits, appended to what was written so far:
    the text replaces the bytes that follow, and so does its terminator. *)
Lemma snprintf_extend (written text : list ascii) (junk : block) (size : Z) :
  zlength text < size ->
  zlength text < zlength junk ->
  snprintf (map Some written ++ junk) (zlength written) size text
  = Val (map Some (written ++ text) ++ Some NUL :: drop (S (length text)) junk,
         zlength text).
Proof.
  intros Hsize Hjunk. unfold snprintf.
  destruct (Z.eqb_spec size 0) as [E|_]; [pose proof (zlength_nonneg text); lia|].
  rewrite Z.min_l by lia.
  replace (Z.to_nat (zlength text)) with (length text) by (unfold zlength; lia).
  rewrite take_ge by reflexivity.
  rewrite <- (take_drop (S (length text)) junk) at 1.
  rewrite <- (zlength_map Some written).
  rewrite store_all_middle.
  - cbn. rewrite !map_app, <- !app_assoc. reflexivity.
  - unfold zlength in Hjunk.
    rewrite length_take_le, length_app by lia. cbn [length]. lia.
Qed.

End MemoryFacts.

(** ** The error channel *)

Section ErrorChannelFacts.

Variable BUFSIZ : Z.
Variable full reason : Z -> list ascii.
Hypothesis BUFSIZ_range : 0 < BUFSIZ <= INT_MAX.

Lemma to_size_t_small (z : Z) : 0 <= z <= INT_MAX -> to_size_t z = z.
Proof. unfold to_size_t, INT_MAX. intros H. apply Z.mod_small. lia. Qed.

Lemma zlength_drop {A} (n : nat) (l : list A) :
  (n <= length l)%nat -> zlength (drop n l) = zlength l - Z.of_nat n.
Proof. intros H. unfold zlength. rewrite length_drop. lia. Qed.

(** The prefix and its separator, when they fit. *)
Lemma format_prefix_fits (p : list ascii) :
  zlength p + 2 < BUFSIZ ->
  exists junk : block,
    zlength junk = BUFSIZ - zlength p - 3 /\
    ('(buf, n) ← snprintf (replicate (Z.to_nat BUFSIZ) None) 0 (to_size_t BUFSIZ) p;
     '(buf, n') ← snprintf buf n (to_size_t (BUFSIZ - n)) (cstr ": ");
     Val (buf, n + n'))
    = Val (map Some (p ++ cstr ": ") ++ Some NUL :: junk, zlength (p ++ cstr ": ")).
Proof.
  intros Hfit. pose proof (zlength_nonneg p) as Hp.
  assert (HB : zlength (replicate (Z.to_nat BUFSIZ) (@None ascii)) = BUFSIZ)
    by (unfold zlength; rewrite length_replicate; lia).
  set (buf0 := replicate (Z.to_nat BUFSIZ) (@None ascii)) in *.
  rewrite to_size_t_small by lia.
  pose proof (snprintf_extend [] p buf0 BUFSIZ) as H1.
  cbn [map app] in H1. change (zlength []) with 0 in H1.
  rewrite H1 by lia. clear H1. cbn [mbind res_mbind res_bind].
  rewrite to_size_t_small by lia.
  set (junk1 := drop (S (length p)) buf0).
  assert (Hj1 : zlength junk1 = BUFSIZ - zlength p - 1).
  { unfold junk1. rewrite zlength_drop; unfold zlength in *; lia. }
  rewrite (snprintf_extend p (cstr ": ") (Some NUL :: junk1)).
  - cbn [mbind res_mbind res_bind].
    exists (drop 2 junk1). split.
    + rewrite zlength_drop; unfold zlength in *; lia.
    + rewrite zlength_app. reflexivity.
  - change (zlength (cstr ": ")) with 2. lia.
  - change (zlength (cstr ": ")) with 2.
    change (Some NUL :: junk1) with ([Some NUL] ++ junk1).
    rewrite zlength_app. change (zlength [Some NUL]) with 1. lia.
Qed.

(** What is formatted for a prefix that fits the array, without and
    with an entry in the error queue. *)
Lemma ossl_raise_format_fits (p : list ascii) (w : world) :
  (err_queue w = [] -> zlength p + 2 < BUFSIZ ->
   exists junk,
     ossl_raise_format BUFSIZ full reason (Some p) w
     = (Val (map Some (p ++ cstr ": ") ++ junk, zlength (p ++ cstr ": ")), w)) /\
  (forall e q, err_queue w = e :: q -> e ≠ 0 ->
   zlength p + 2 + zlength (native_text full reason (dOSSL w) e) < BUFSIZ ->
   exists junk,
     ossl_raise_format BUFSIZ full reason (Some p) w
     = (Val (map Some (p ++ cstr ": " ++ native_text full reason (dOSSL w) e) ++ junk,
             zlength (p ++ cstr ": " ++ native_text full reason (dOSSL w) e)),
        set_err_queue [] w)).
Proof.
  split.
  - intros Hq Hfit. destruct (format_prefix_fits p Hfit) as (junk & Hj & E).
    exists (Some NUL :: junk).
    unfold ossl_raise_format, ERR_get_error.
    unfold mbind at 1, ST_mbind, ST_bind. rewrite Hq.
    unfold mbind at 1, ST_mbind, ST_bind, lift.
    rewrite E. reflexivity.
  - intros e q Hq He Hfit.
    pose proof (zlength_nonneg (native_text full reason (dOSSL w) e)) as Hn.
    destruct (format_prefix_fits p ltac:(lia)) as (junk & Hj & E).
    unfold ossl_raise_format, ERR_get_error.
    unfold mbind at 1, ST_mbind, ST_bind. rewrite Hq.
    unfold mbind at 1, ST_mbind, ST_bind, lift.
    rewrite E. apply Z.eqb_neq in He. rewrite He. cbn [negb].
    unfold mbind, ST_mbind, ST_bind, get_state, ERR_clear_error, modify.
    cbn [dOSSL set_err_queue].
    fold (native_text full reason (dOSSL w) e).
    assert (Hw : zlength (p ++ cstr ": ") = zlength p + 2)
      by (rewrite zlength_app; reflexivity).
    pose proof (zlength_nonneg p) as Hp.
    rewrite to_size_t_small by (rewrite Hw; lia).
    rewrite snprintf_extend.
    + exists (Some NUL :: drop (S (length (native_text full reason (dOSSL w) e))) (Some NUL :: junk)).
      rewrite <- app_assoc, !zlength_app, Z.add_assoc. reflexivity.
    + rewrite Hw. lia.
    + change (Some NUL :: junk) with ([Some NUL] ++ junk).
      rewrite zlength_app. change (zlength [Some NUL]) with 1. lia.
Qed.

Lemma ossl_raise_of_format {A} exc fmt w (written : list ascii) junk w' :
  ossl_raise_format BUFSIZ full reason fmt w
  = (Val (map Some written ++ junk, zlength written), w') ->
  @ossl_raise BUFSIZ full reason A exc fmt w = (Raised (Exn exc written), w').
Proof.
  intros E. unfold ossl_raise.
  unfold mbind at 1, ST_mbind, ST_bind. rewrite E.
  unfold mbind, ST_mbind, ST_bind, lift, rb_exc_new, res_mbind, rb_exc_raise.
  unfold zlength. rewrite Nat2Z.id, load_all_prefix. reflexivity.
Qed.

(** C4: a call with a prefix whose whole text fits the buffer.  The
    message is the rendered prefix followed by the separator [": "], with
    or without a native error entry; when there is an entry its text
    follows, the full diagnostic text exactly when the debug flag is
    [Qtrue] and the short reason string otherwise, and the queue is
    cleared. *)
Theorem ossl_raise_message A (exc : rclass) (p : list ascii) (w : world) :
  (err_queue w = [] -> zlength p + 2 < BUFSIZ ->
   @ossl_raise BUFSIZ full reason A exc (Some p) w
   = (Raised (Exn exc (p ++ cstr ": ")), w)) /\
  (forall e q, err_queue w = e :: q -> e ≠ 0 ->
   zlength p + 2 + zlength (native_text full reason (dOSSL w) e) < BUFSIZ ->
   @ossl_raise BUFSIZ full reason A exc (Some p) w
   = (Raised (Exn exc (p ++ cstr ": " ++ native_text full reason (dOSSL w) e)),
      set_err_queue [] w)) /\
  (forall e, native_text full reason Qtrue e = full e) /\
  (forall e, dOSSL w ≠ Qtrue -> native_text full reason (dOSSL w) e = reason e).
Proof.
  destruct (ossl_raise_format_fits p w) as [H0 H1].
  split; [|split; [|split]].
  - intros Hq Hfit. destruct (H0 Hq Hfit) as (junk & E).
    apply (ossl_raise_of_format exc (Some p) w _ junk w E).
  - intros e q Hq He Hfit. destruct (H1 e q Hq He Hfit) as (junk & E).
    apply (ossl_raise_of_format exc (Some p) w _ junk _ E).
  - reflexivity.
  - intros e Hd. unfold native_text. apply Z.eqb_neq in Hd. rewrite Hd. reflexivity.
Qed.


End ErrorChannelFacts.

(** With the [BUFSIZ] of glibc, the prefix ["x"] and one queued entry. *)
Lemma ossl_raise_message_witness :
  @ossl_raise 8192 sample_error_string sample_reason_error_string unit
    eOSSLError (Some (cstr "x")) (set_err_queue [218529960] idle)
  = (Raised (Exn eOSSLError (cstr "x: wrong tag")), idle).
Proof.
  assert (R : 0 < 8192 <= INT_MAX) by (unfold INT_MAX; lia).
  destruct (ossl_raise_message 8192 sample_error_string
              sample_reason_error_string R unit eOSSLError (cstr "x")
              (set_err_queue [218529960] idle)) as (_ & H & _).
  apply (H 218529960 []).
  - reflexivity.
  - discriminate.
  - vm_compute. reflexivity.
Defined.

(** C4, as stated, fails: with the prefix ["x"] and an empty error queue
    the message is ["x: "], separator included, not the prefix alone. *)
Lemma ossl_raise_separator_without_entry :
  @ossl_raise 8192 sample_error_string sample_reason_error_string unit
    eOSSLError (Some (cstr "x")) idle
  = (Raised (Exn eOSSLError (cstr "x: ")), idle)
  /\ cstr "x: " <> cstr "x".
Proof. split; [vm_compute; reflexivity | discriminate]. Qed.

Section Overlong.

Variable BUFSIZ : Z.
Variable full reason : Z -> list ascii.
Hypothesis BUFSIZ_range : 0 < BUFSIZ <= INT_MAX.

Lemma zlength_replicate {A} (n : nat) (x : A) : zlength (replicate n x) = Z.of_nat n.
Proof. unfold zlength. now rewrite length_replicate. Qed.

Lemma load_all_past_end (cs : list ascii) :
  forall (pre : block) (n : nat),
    (length cs < n)%nat ->
    load_all (pre ++ map Some cs) (zlength pre) n
    = Fault (OutOfBoundsRead (zlength pre + zlength cs)).
Proof.
  induction cs as [|c cs IH]; intros pre n Hn.
  - destruct n as [|n]; [lia|]. cbn [load_all map]. rewrite app_nil_r.
    unfold read. pose proof (zlength_nonneg pre) as Hp.
    destruct (Z.ltb_spec (zlength pre) 0) as [H|_]; [lia|].
    replace (Z.to_nat (zlength pre)) with (length pre) by (unfold zlength; lia).
    rewrite lookup_ge_None_2 by reflexivity.
    change (zlength []) with 0. rewrite Z.add_0_r. reflexivity.
  - destruct n as [|n]; [cbn in Hn; lia|]. cbn [load_all map].
    rewrite read_middle. cbn.
    replace (pre ++ Some c :: map Some cs) with ((pre ++ [Some c]) ++ map Some cs)
      by (rewrite <- app_assoc; reflexivity).
    replace (zlength pre + 1) with (zlength (pre ++ [Some c]))
      by (rewrite zlength_app; reflexivity).
    rewrite IH by (cbn in Hn; lia). rewrite zlength_app.
    change (zlength [Some c]) with 1.
    change (c :: cs) with ([c] ++ cs). rewrite (zlength_app [c] cs).
    change (zlength [c]) with 1. rewrite Z.add_assoc. reflexivity.
Qed.

(** A text that does not fit an array of [size] bytes is cut. *)
Lemma snprintf_cut (text : list ascii) (b : block) (size : Z) :
  0 < size -> zlength b = size -> size <= zlength text ->
  snprintf b 0 size text
  = Val (map Some (take (Z.to_nat (size - 1)) text ++ [NUL]), zlength text).
Proof.
  intros Hs Hb Ht. unfold snprintf.
  destruct (Z.eqb_spec size 0) as [E0|_]; [lia|].
  rewrite Z.min_r by lia.
  pose proof (store_all_middle (take (Z.to_nat (size - 1)) text ++ [NUL]) [] b [])
    as H1.
  cbn [app] in H1. rewrite !app_nil_r in H1. change (zlength []) with 0 in H1.
  rewrite H1; [reflexivity|].
  unfold zlength in *.
  rewrite length_app, length_take_le; cbn [length]; lia.
Qed.

(** A prefix longer than the array: [vsnprintf] cuts it and returns its
    whole length, [BUFSIZ - len] is negative, hence a huge [size_t], and
    the separator is stored outside the array. *)
Lemma ossl_raise_prefix_beyond A exc (p : list ascii) (w : world) :
  BUFSIZ < zlength p <= INT_MAX ->
  fst (@ossl_raise BUFSIZ full reason A exc (Some p) w)
  = Fault (OutOfBoundsWrite (zlength p)).
Proof.
  intros Hp.
  unfold ossl_raise, ossl_raise_format, ERR_get_error.
  assert (E : ('(buf, n) ← snprintf (replicate (Z.to_nat BUFSIZ) None) 0
                             (to_size_t BUFSIZ) p;
               '(buf, n') ← snprintf buf n (to_size_t (BUFSIZ - n)) (cstr ": ");
               Val (buf, n + n'))
              = @Fault (block * Z) (OutOfBoundsWrite (zlength p))).
  { rewrite to_size_t_small by lia.
    rewrite snprintf_cut by (rewrite ?zlength_replicate; lia).
    cbn [mbind res_mbind res_bind].
    unfold snprintf.
    assert (Hs : to_size_t (BUFSIZ - zlength p) = 2 ^ 64 + (BUFSIZ - zlength p)).
    { unfold to_size_t, INT_MAX in *.
      rewrite <- (Z_mod_plus_full (BUFSIZ - zlength p) 1 (2 ^ 64)).
      rewrite Z.mod_small; lia. }
    rewrite Hs.
    destruct (Z.eqb_spec (2 ^ 64 + (BUFSIZ - zlength p)) 0) as [E0|_];
      [unfold INT_MAX in *; lia|].
    change (zlength (cstr ": ")) with 2.
    rewrite Z.min_l by (unfold INT_MAX in *; lia).
    change (take (Z.to_nat 2) (cstr ": ") ++ [NUL])
      with (":"%char :: (cstr " " ++ [NUL])).
    rewrite store_all_outside; [reflexivity|].
    rewrite zlength_map, zlength_app. change (zlength [NUL]) with 1.
    unfold zlength at 1. rewrite length_take_le by (unfold zlength in Hp; lia).
    lia. }
  unfold mbind at 1 2 3, ST_mbind, ST_bind, lift.
  destruct (err_queue w) as [|e q]; rewrite E; reflexivity.
Qed.

(** A prefix of exactly [BUFSIZ - 1] characters and no error entry: every
    store is inside the array, the separator is cut to nothing, and the
    length that goes to [rb_exc_new] is [BUFSIZ + 1]. *)
Lemma ossl_raise_format_prefix_full (p : list ascii) (w : world) :
  zlength p = BUFSIZ - 1 -> err_queue w = [] ->
  ossl_raise_format BUFSIZ full reason (Some p) w
  = (Val (map Some (p ++ [NUL]), BUFSIZ + 1), w).
Proof.
  intros Hp Hq.
  unfold ossl_raise_format, ERR_get_error.
  unfold mbind at 1, ST_mbind, ST_bind. rewrite Hq.
  unfold mbind at 1, ST_mbind, ST_bind, lift.
  rewrite to_size_t_small by lia.
  pose proof (snprintf_extend [] p (replicate (Z.to_nat BUFSIZ) None) BUFSIZ) as H1.
  cbn [map app] in H1. change (zlength []) with 0 in H1.
  rewrite H1 by (rewrite ?zlength_replicate; lia). clear H1.
  cbn [mbind res_mbind res_bind].
  rewrite drop_ge by (rewrite length_replicate; unfold zlength in Hp; lia).
  replace (BUFSIZ - zlength p) with 1 by lia.
  unfold snprintf. change (to_size_t 1 =? 0) with false. cbv iota.
  change (to_size_t 1 - 1) with 0.
  rewrite Z.min_r by apply zlength_nonneg.
  change (take (Z.to_nat 0) (cstr ": ") ++ [NUL]) with [NUL].
  pose proof (store_all_middle [NUL] (map Some p) [Some NUL] []) as H2.
  rewrite zlength_map, app_nil_r in H2. rewrite H2 by reflexivity. clear H2.
  cbn [mbind res_mbind res_bind map].
  rewrite map_app. cbn [map]. rewrite app_nil_r.
  change (zlength (cstr ": ")) with 2.
  replace (zlength p + 2) with (BUFSIZ + 1) by lia.
  reflexivity.
Qed.

Lemma ossl_raise_prefix_full A exc (p : list ascii) (w : world) :
  zlength p = BUFSIZ - 1 -> err_queue w = [] ->
  @ossl_raise BUFSIZ full reason A exc (Some p) w
  = (Fault (OutOfBoundsRead BUFSIZ), w).
Proof.
  intros Hp Hq. unfold ossl_raise.
  unfold mbind at 1, ST_mbind, ST_bind.
  rewrite ossl_raise_format_prefix_full by assumption.
  unfold mbind, ST_mbind, ST_bind, lift, rb_exc_new, res_mbind.
  pose proof (load_all_past_end (p ++ [NUL]) [] (Z.to_nat (BUFSIZ + 1))) as H.
  cbn [app] in H. change (zlength []) with 0 in H. rewrite H.
  - rewrite zlength_app. change (zlength [NUL]) with 1.
    replace (0 + (zlength p + 1)) with BUFSIZ by lia. reflexivity.
  - rewrite length_app. cbn [length]. unfold zlength in Hp. lia.
Qed.

End Overlong.

(** C5: prefixes that do not fit, with the [BUFSIZ] of glibc and an empty
    error queue.  A prefix of 8200 characters: [vsnprintf] returns 8200,
    and the separator is stored at offset 8200, outside the array.  A
    prefix of 8191 characters: every store is inside the array, the
    length handed to [rb_exc_new] is 8193, more than the array holds, and
    the message is read past the end of the array. *)
Theorem ossl_raise_long_prefix_overflows :
  fst (@ossl_raise 8192 sample_error_string sample_reason_error_string unit
         eOSSLError (Some (replicate (Z.to_nat 8200) "a"%char)) idle)
  = Fault (OutOfBoundsWrite 8200)
  /\ (exists buf,
        fst (ossl_raise_format 8192 sample_error_string
               sample_reason_error_string
               (Some (replicate (Z.to_nat 8191) "a"%char)) idle)
        = Val (buf, 8193) /\ 8192 < 8193)
  /\ fst (@ossl_raise 8192 sample_error_string sample_reason_error_string unit
            eOSSLError (Some (replicate (Z.to_nat 8191) "a"%char)) idle)
     = Fault (OutOfBoundsRead 8192).
Proof.
  assert (R : 0 < 8192 <= INT_MAX) by (unfold INT_MAX; lia).
  split; [|split].
  - rewrite (ossl_raise_prefix_beyond 8192 _ _ R).
    + rewrite zlength_replicate. reflexivity.
    + rewrite zlength_replicate. unfold INT_MAX. lia.
  - eexists. split; [|lia].
    rewrite (ossl_raise_format_prefix_full 8192 _ _ R); [reflexivity| |reflexivity].
    rewrite zlength_replicate. lia.
  - rewrite (ossl_raise_prefix_full 8192 _ _ R); [reflexivity| |reflexivity].
    rewrite zlength_replicate. lia.
Qed.

(** ** The debug flag *)

Lemma ossl_raise_format_short BUFSIZ full reason fmt w :
  dOSSL w ≠ Qtrue ->
  ossl_raise_format BUFSIZ full reason fmt w =
  ossl_raise_format BUFSIZ reason reason fmt w.
Proof.
  intros Hd. apply Z.eqb_neq in Hd.
  unfold ossl_raise_format, ERR_get_error.
  unfold mbind, ST_mbind, ST_bind.
  destruct (err_queue w) as [|e q]; [reflexivity|].
  destruct fmt as [text|]; cbn.
  - destruct (snprintf _ 0 _ text) as [[b n]| |]; cbn; try reflexivity.
    destruct (snprintf b n _ _) as [[b' n']| |]; cbn; try reflexivity.
    destruct (e =? 0); cbn; [reflexivity|]. rewrite Hd. reflexivity.
  - destruct (e =? 0); cbn; [reflexivity|]. rewrite Hd. reflexivity.
Qed.

(** What the setter leaves of the state: the flag is the new value, and
    what was emitted is what the comparison with the old value asks
    for. *)
Lemma ossl_debug_set_state val w :
  val ≠ Qtrue ->
  fst (ossl_debug_set val w) = Val val /\
  ((dOSSL w ≠ Qtrue /\ snd (ossl_debug_set val w) = set_dOSSL val w) \/
   (dOSSL w = Qtrue /\
    snd (ossl_debug_set val w)
    = emit (Stderr "OSSL_DEBUG: IS NOW OFF!
") (emit (MemCtrl false) (set_dOSSL val w)))).
Proof.
  intros Hval. pose proof Hval as Hb. apply Z.eqb_neq in Hb.
  unfold ossl_debug_set.
  unfold mbind, ST_mbind, ST_bind, get_state, modify, mret, ST_mret; cbn.
  rewrite Hb.
  destruct (Z.eqb_spec (dOSSL w) val) as [Eold|Eold]; cbn.
  - split; [reflexivity|]. left. split; [congruence|reflexivity].
  - destruct (Z.eqb_spec (dOSSL w) Qtrue) as [Et|Et]; cbn.
    + split; [reflexivity|]. right. split; [assumption|reflexivity].
    + split; [reflexivity|]. left. split; [assumption|reflexivity].
Qed.

(** The message of a raise when the flag is not exactly [Qtrue] and the
    error queue holds an entry: what precedes the native message, then
    the short reason string. *)
Lemma ossl_raise_short_message BUFSIZ full reason A exc fmt w e q :
  0 < BUFSIZ <= INT_MAX ->
  dOSSL w ≠ Qtrue -> err_queue w = e :: q -> e ≠ 0 ->
  zlength (prefix_text fmt) + zlength (reason e) < BUFSIZ ->
  @ossl_raise BUFSIZ full reason A exc fmt w
  = (Raised (Exn exc (prefix_text fmt ++ reason e)), set_err_queue [] w).
Proof.
  intros HB Hd Hq He Hfit.
  assert (Hn : native_text full reason (dOSSL w) e = reason e).
  { unfold native_text. apply Z.eqb_neq in Hd. rewrite Hd. reflexivity. }
  destruct fmt as [p|]; cbn [prefix_text] in *.
  - destruct (ossl_raise_format_fits BUFSIZ full reason HB p w) as [_ H1].
    destruct (H1 e q Hq He) as (junk & E).
    + rewrite Hn. rewrite zlength_app in Hfit.
      change (zlength (cstr ": ")) with 2 in Hfit. lia.
    + rewrite Hn in E. rewrite <- app_assoc.
      apply (ossl_raise_of_format BUFSIZ full reason exc (Some p) w _ junk _ E).
  - change (zlength []) with 0 in Hfit. cbn [app].
    pose proof (zlength_nonneg (reason e)) as Hr.
    apply (ossl_raise_of_format BUFSIZ full reason exc None w _
             (Some NUL :: drop (S (length (reason e)))
                            (replicate (Z.to_nat BUFSIZ) None))).
    unfold ossl_raise_format, ERR_get_error.
    unfold mbind at 1, ST_mbind, ST_bind. rewrite Hq.
    unfold mbind at 1, mret at 1, ST_mbind, ST_mret, ST_bind.
    apply Z.eqb_neq in He. rewrite He. cbn [negb].
    unfold mbind, mret, ST_mbind, ST_mret, ST_bind, get_state, ERR_clear_error,
      modify, lift.
    cbn [dOSSL set_err_queue].
    fold (native_text full reason (dOSSL w) e). rewrite Hn.
    rewrite Z.sub_0_r, to_size_t_small by lia.
    pose proof (snprintf_extend [] (reason e)
                  (replicate (Z.to_nat BUFSIZ) None) BUFSIZ) as H1.
    cbn [map app] in H1. change (zlength []) with 0 in H1.
    rewrite H1 by (rewrite ?zlength_replicate; lia).
    reflexivity.
Qed.

(** C9: the setter stores the value as it is.  For a value other than the
    exact [Qtrue] (a truthy integer, say): the flag holds that very value
    and it is returned; the enable path does not run; nothing at all is
    emitted when the previous value was not exactly [Qtrue], and the
    disable path runs when it was, and only then; and a later
    [ossl_raise] takes the short-message branch: with an entry in the
    error queue its message is what precedes the native message followed
    by the short reason string of the entry, whatever the full
    diagnostic text is. *)
Theorem debug_set_stores_verbatim val w :
  val ≠ Qtrue ->
  let w' := snd (ossl_debug_set val w) in
  fst (ossl_debug_set val w) = Val val /\
  dOSSL w' = val /\
  ~ In (MemCtrl true) (drop (length (events w)) (events w')) /\
  (dOSSL w ≠ Qtrue -> w' = set_dOSSL val w) /\
  (dOSSL w = Qtrue ->
   w' = emit (Stderr "OSSL_DEBUG: IS NOW OFF!
") (emit (MemCtrl false) (set_dOSSL val w))) /\
  (In (MemCtrl false) (drop (length (events w)) (events w')) -> dOSSL w = Qtrue) /\
  (forall BUFSIZ full reason A exc fmt e q,
     0 < BUFSIZ <= INT_MAX ->
     err_queue w = e :: q -> e ≠ 0 ->
     zlength (prefix_text fmt) + zlength (reason e) < BUFSIZ ->
     @ossl_raise BUFSIZ full reason A exc fmt w'
     = (Raised (Exn exc (prefix_text fmt ++ reason e)), set_err_queue [] w')) /\
  (forall A BUFSIZ full reason exc fmt,
     @ossl_raise BUFSIZ full reason A exc fmt w' =
     @ossl_raise BUFSIZ reason reason A exc fmt w').
Proof.
  intros Hval w'.
  destruct (ossl_debug_set_state val w Hval) as [Hret Hst].
  fold w' in Hst.
  assert (Hflag : dOSSL w' = val) by (destruct Hst as [[_ ->]|[_ ->]]; reflexivity).
  assert (Hqueue : err_queue w' = err_queue w)
    by (destruct Hst as [[_ ->]|[_ ->]]; reflexivity).
  split; [exact Hret|]. split; [exact Hflag|].
  split; [|split; [|split; [|split; [|split]]]].
  - destruct Hst as [[_ ->]|[_ ->]]; cbn [events emit set_dOSSL].
    + rewrite drop_all. intros [].
    + rewrite <- app_assoc, drop_app_length. cbn. intros [H|[H|[]]]; discriminate.
  - intros Hn. destruct Hst as [[_ E]|[Ht _]]; [exact E|contradiction].
  - intros Ht. destruct Hst as [[Hn _]|[_ E]]; [contradiction|exact E].
  - destruct Hst as [[_ ->]|[Ht _]]; [|intros _; exact Ht].
    cbn [events set_dOSSL]. rewrite drop_all. intros [].
  - intros BUFSIZ full reason A exc fmt e q HB Hq He Hfit.
    apply (ossl_raise_short_message BUFSIZ full reason A exc fmt w' e q HB).
    + rewrite Hflag. exact Hval.
    + rewrite Hqueue. exact Hq.
    + exact He.
    + exact Hfit.
  - intros. unfold ossl_raise, mbind, ST_mbind, ST_bind.
    rewrite ossl_raise_format_short by (rewrite Hflag; exact Hval). reflexivity.
Qed.

(** Setting the integer 1 on a process whose flag is [Qfalse] and whose
    error queue holds one entry, and then a raise with the prefix ["x"]
    and the [BUFSIZ] of glibc. *)
Lemma debug_set_stores_verbatim_witness :
  let w := World Qfalse [218529960] (Heap ∅ 0) [] in
  let w' := World (INT2FIX 1) [218529960] (Heap ∅ 0) [] in
  RTEST (INT2FIX 1) = true /\
  ossl_debug_set (INT2FIX 1) w = (Val (INT2FIX 1), w') /\
  @ossl_raise 8192 sample_error_string sample_reason_error_string unit
    eOSSLError (Some (cstr "x")) w'
  = (Raised (Exn eOSSLError (cstr "x: wrong tag")), set_err_queue [] w').
Proof.
  intros w w'.
  pose proof (debug_set_stores_verbatim (INT2FIX 1) w) as H.
  cbv zeta in H.
  destruct H as (Hr & _ & _ & Hsame & _ & _ & Hraise & _); [discriminate|].
  specialize (Hsame ltac:(discriminate)).
  change (set_dOSSL (INT2FIX 1) w) with w' in Hsame.
  rewrite Hsame in Hraise.
  split; [reflexivity|]. split.
  - destruct (ossl_debug_set (INT2FIX 1) w) as [r w1].
    cbn [fst snd] in Hr, Hsame. subst. reflexivity.
  - apply (Hraise 8192 sample_error_string sample_reason_error_string unit
             eOSSLError (Some (cstr "x")) 218529960 []).
    + unfold INT_MAX. lia.
    + reflexivity.
    + discriminate.
    + vm_compute. reflexivity.
Defined.

(** C9, as stated, fails: setting the integer 1, a truthy value that is
    not the exact true object, when the flag held [Qtrue].  The disable
    path runs: the instrumentation of the allocator is switched off and
    the notice is printed. *)
Lemma debug_set_truthy_runs_disable_path :
  RTEST (INT2FIX 1) = true /\ INT2FIX 1 <> Qtrue /\
  ossl_debug_set (INT2FIX 1) (World Qtrue [] (Heap ∅ 0) []) =
  (Val (INT2FIX 1),
   World (INT2FIX 1) [] (Heap ∅ 0)
     [MemCtrl false; Stderr "OSSL_DEBUG: IS NOW OFF!
"]).
Proof. split; [reflexivity|]. split; [discriminate|reflexivity]. Qed.

(** ** The passphrase callback *)

Lemma wrap_int_small (z : Z) : INT_MIN <= z <= INT_MAX -> wrap_int z = z.
Proof.
  unfold wrap_int, INT_MIN, INT_MAX. intros H.
  rewrite Z.mod_small; lia.
Qed.



Section PassphraseFacts.

Variable objspace : VALUE -> option robj.
Variable PEM_def_callback : block -> Z -> Z -> option (list ascii) -> M (Z * block).

Local Abbreviation passwd_cb := (ossl_pem_passwd_cb objspace PEM_def_callback).
Local Abbreviation loop := (passwd_loop objspace).

Lemma emit_all_nil w : emit_all [] w = w.
Proof. destruct w. unfold emit_all. cbn. now rewrite app_nil_r. Qed.

Lemma emit_all_cons e evs w : emit_all (e :: evs) w = emit_all evs (emit e w).
Proof. unfold emit_all, emit. cbn. now rewrite <- app_assoc. Qed.

(** The protected run raised: -1, the buffer is not touched. *)
Lemma passwd_loop_raises run runs buf max_len flag w :
  password_of objspace run (rflag_of flag) = None ->
  loop (run :: runs) buf max_len flag w = (Val (Some (-1, buf)), w).
Proof.
  unfold password_of, rflag_of. cbn [passwd_loop]. cbv zeta.
  unfold ossl_pem_passwd_cb0, rb_yield, SafeStringValue, RSTRING.
  unfold mbind, mret, ST_mbind, ST_mret, ST_bind, rb_protect, rb_exc_raise.
  destruct (run (if flag =? 0 then Qfalse else Qtrue)) as [v|e]; [|reflexivity].
  destruct (objspace v) as [[s| | |]|]; intros H.
  all: first [discriminate H | reflexivity].
Qed.

Lemma passwd_loop_string run runs buf max_len flag w s :
  password_of objspace run (rflag_of flag) = Some s ->
  loop (run :: runs) buf max_len flag w =
  (let len := wrap_int (zlength s) in
   if len <? 4 then
     loop runs buf max_len flag
       (emit (Warning "password must be longer than 4 bytes" []) w)
   else if max_len <? len then
     loop runs buf max_len flag
       (emit (Warning "password must be shorter then %d bytes"
                [wrap_int (max_len - 1)]) w)
   else
     match memcpy buf s (to_size_t len) with
     | Val buf' => (Val (Some (len, buf')), w)
     | Raised e => (Raised e, w)
     | Fault f => (Fault f, w)
     end).
Proof.
  unfold password_of, rflag_of. cbn [passwd_loop]. cbv zeta.
  unfold ossl_pem_passwd_cb0, rb_yield, SafeStringValue, RSTRING.
  unfold mbind, mret, ST_mbind, ST_mret, ST_bind, rb_protect, rb_exc_raise.
  destruct (run (if flag =? 0 then Qfalse else Qtrue)) as [v|e]; [|discriminate].
  destruct (objspace v) as [[s'| | |]|] eqn:Ev; try discriminate.
  intros H. injection H as ->. rewrite Ev.
  destruct (wrap_int (zlength s) <? 4); [reflexivity|].
  destruct (max_len <? wrap_int (zlength s)); [reflexivity|].
  unfold lift. destruct (memcpy buf s (to_size_t (wrap_int (zlength s)))); reflexivity.
Qed.

Lemma passwd_loop_refused run runs buf max_len flag w s :
  password_of objspace run (rflag_of flag) = Some s ->
  wrap_int (zlength s) < 4 \/ max_len < wrap_int (zlength s) ->
  loop (run :: runs) buf max_len flag w =
  loop runs buf max_len flag
    (emit (retry_warning_of objspace max_len (rflag_of flag) run) w).
Proof.
  intros H Hbad. rewrite (passwd_loop_string _ _ _ _ _ _ s H). cbv zeta.
  unfold retry_warning_of, retry_warning. rewrite H.
  change (default [] (Some s)) with s.
  destruct (Z.ltb_spec (wrap_int (zlength s)) 4) as [H4|H4]; [reflexivity|].
  destruct (Z.ltb_spec max_len (wrap_int (zlength s))) as [Hm|Hm]; [reflexivity|lia].
Qed.







End PassphraseFacts.





(** ** The hex encoder *)

Section HexFacts.

Import Hex.

Variable char_is_signed : bool.

(** The test [len < buf_len] of the code finds exactly the lengths whose
    double does not fit an [int]. *)
Lemma doubling_wraps_below (n : Z) :
  0 <= n <= INT_MAX -> (wrap_int (2 * n) < n <-> INT_MAX < 2 * n).
Proof.
  unfold wrap_int, INT_MAX. intros H.
  destruct (Z_lt_le_dec (2 ^ 31 - 1) (2 * n)) as [Hov|Hok].
  - replace ((2 * n + 2 ^ 31) mod 2 ^ 32) with (2 * n + 2 ^ 31 - 2 ^ 32).
    + lia.
    + symmetry. rewrite <- (Z_mod_plus_full _ (-1) (2 ^ 32)).
      rewrite Z.mod_small; lia.
  - rewrite Z.mod_small by lia. lia.
Qed.

Lemma read_hex_hi (c : ascii) :
  read hex (Z.shiftr (uchar c) 4) = Val (hex_digit (hi_nibble c)).
Proof. destruct c as [[] [] [] [] [] [] [] []]; vm_compute; reflexivity. Qed.

Lemma read_hex_lo (c : ascii) :
  read hex (Z.land (char_to_int char_is_signed c) 15) = Val (hex_digit (lo_nibble c)).
Proof.
  destruct char_is_signed;
    destruct c as [[] [] [] [] [] [] [] []]; vm_compute; reflexivity.
Qed.

Lemma hex_decode_digits (c : ascii) (s : list ascii) :
  hex_decode (hex_digit (hi_nibble c) :: hex_digit (lo_nibble c) :: s)
  = match hex_decode s with Some r => Some (c :: r) | None => None end.
Proof.
  cbn [hex_decode].
  assert (E : hex_value (hex_digit (hi_nibble c)) = Some (hi_nibble c) /\
              hex_value (hex_digit (lo_nibble c)) = Some (lo_nibble c) /\
              ascii_of_N (Z.to_N (16 * hi_nibble c + lo_nibble c)) = c).
  { destruct c as [[] [] [] [] [] [] [] []]; vm_compute; repeat split. }
  destruct E as (-> & -> & ->). reflexivity.
Qed.

(** Reading the text back gives the bytes. *)
Lemma hex_decode_text (b : list ascii) : hex_decode (hex_text b) = Some b.
Proof.
  induction b as [|c b IH]; [reflexivity|].
  cbn [hex_text flat_map app]. fold (hex_text b).
  rewrite hex_decode_digits, IH. reflexivity.
Qed.

Lemma length_hex_text (b : list ascii) : length (hex_text b) = (2 * length b)%nat.
Proof.
  induction b as [|c b IH]; [reflexivity|].
  cbn [hex_text flat_map app length]. fold (hex_text b). rewrite IH. lia.
Qed.

Lemma hex_text_app (a b : list ascii) : hex_text (a ++ b) = hex_text a ++ hex_text b.
Proof. unfold hex_text. apply flat_map_app. Qed.

(** Positions [2i] and [2i+1] of the text hold the digits of byte [i]. *)
Lemma hex_text_lookup (b : list ascii) (i : nat) (c : ascii) :
  b !! i = Some c ->
  hex_text b !! (2 * i)%nat = Some (hex_digit (hi_nibble c)) /\
  hex_text b !! (2 * i + 1)%nat = Some (hex_digit (lo_nibble c)).
Proof.
  revert i. induction b as [|x b IH]; intros i H; [discriminate|].
  destruct i as [|i].
  - injection H as ->. split; reflexivity.
  - cbn in H. destruct (IH i H) as [H1 H2].
    replace (2 * S i)%nat with (S (S (2 * i))) by lia.
    replace (S (S (2 * i)) + 1)%nat with (S (S (2 * i + 1))) by lia.
    split; assumption.
Qed.

(** The loop, from any iteration on: [done] was encoded into [pre], the
    bytes of [todo] are encoded over the start of [rest]. *)
Lemma string2hex_loop_spec (todo : list ascii) :
  forall (done extra pre : list ascii) (rest : block),
    zlength pre = 2 * zlength done ->
    (2 * length todo <= length rest)%nat ->
    string2hex_loop char_is_signed (length todo) (zlength done)
      (done ++ todo ++ extra) (map Some pre ++ rest)
    = Val (zlength done + zlength todo,
           map Some (pre ++ hex_text todo) ++ drop (2 * length todo) rest).
Proof.
  induction todo as [|c todo IH]; intros done extra pre rest Hpre Hrest.
  - cbn. rewrite Z.add_0_r, app_nil_r. reflexivity.
  - destruct rest as [|r0 [|r1 rest]]; [cbn in Hrest; lia..|].
    cbn [length string2hex_loop app].
    rewrite read_middle. cbn [mbind res_mbind res_bind].
    rewrite read_hex_hi. cbn [mbind res_mbind res_bind].
    rewrite <- Hpre, <- (zlength_map Some pre), store_middle.
    cbn [mbind res_mbind res_bind].
    rewrite read_hex_lo. cbn [mbind res_mbind res_bind].
    replace (map Some pre ++ Some (hex_digit (hi_nibble c)) :: r1 :: rest)
      with ((map Some pre ++ [Some (hex_digit (hi_nibble c))]) ++ r1 :: rest)
      by (rewrite <- app_assoc; reflexivity).
    replace (zlength (map Some pre) + 1)
      with (zlength (map Some pre ++ [Some (hex_digit (hi_nibble c))]))
      by (rewrite zlength_app; reflexivity).
    rewrite store_middle. cbn [mbind res_mbind res_bind].
    replace (zlength done + 1) with (zlength (done ++ [c]))
      by (rewrite zlength_app; reflexivity).
    replace (done ++ c :: todo ++ extra) with ((done ++ [c]) ++ todo ++ extra)
      by (rewrite <- app_assoc; reflexivity).
    replace ((map Some pre ++ [Some (hex_digit (hi_nibble c))]) ++
             Some (hex_digit (lo_nibble c)) :: rest)
      with (map Some (pre ++ [hex_digit (hi_nibble c); hex_digit (lo_nibble c)])
            ++ rest)
      by (rewrite map_app, <- !app_assoc; reflexivity).
    rewrite IH.
    + rewrite zlength_app. change (zlength [c]) with 1.
      change (c :: todo) with ([c] ++ todo). rewrite (zlength_app [c] todo).
      change (zlength [c]) with 1.
      rewrite hex_text_app, <- !app_assoc, Z.add_assoc.
      replace (2 * S (length todo))%nat with (S (S (2 * length todo))) by lia.
      reflexivity.
    + rewrite !zlength_app, Hpre. change (zlength [c]) with 1.
      change (zlength [hex_digit (hi_nibble c); hex_digit (lo_nibble c)]) with 2.
      lia.
    + cbn [length] in Hrest. lia.
Qed.

Lemma fresh_addr_spec (h : nheap) :
  fresh_addr h ≠ NULL /\ cells h !! fresh_addr h = None.
Proof.
  unfold fresh_addr.
  pose proof (is_fresh ({[NULL]} ∪ dom (cells h))) as H. split.
  - intros E. apply H. rewrite E. set_solver.
  - apply not_elem_of_dom. set_solver.
Qed.

(** The call with a destination on a valid length, when the allocation
    succeeds.  [extra] is whatever follows the [buf_len] bytes. *)
Lemma string2hex_fills (b extra : list ascii) (hexbuf_len : bool) (h : nheap) r :
  2 * zlength b <= INT_MAX -> room h = S r ->
  string2hex char_is_signed (b ++ extra) (zlength b) true hexbuf_len h
  = Val (S2hOut (2 * zlength b) (Some (fresh_addr h))
           (if hexbuf_len then Some (2 * zlength b) else None),
         Heap (<[fresh_addr h := NBytes (map Some (hex_text b ++ [NUL]))]> (cells h))
              r).
Proof.
  intros Hlen Hroom. pose proof (zlength_nonneg b) as Hb.
  destruct (fresh_addr_spec h) as [Hnull Hfresh].
  unfold string2hex.
  rewrite wrap_int_small by (unfold INT_MIN, INT_MAX in *; lia).
  destruct (Z.ltb_spec (zlength b) 0) as [H0|_]; [lia|].
  destruct (Z.ltb_spec (2 * zlength b) (zlength b)) as [H0|_]; [lia|].
  cbn [orb negb].
  unfold OPENSSL_malloc, alloc. rewrite Hroom. cbv zeta.
  destruct (Nat.eqb_spec (fresh_addr h) NULL) as [E|_]; [contradiction|].
  cbn [cells room]. rewrite lookup_insert_eq.
  replace (Z.to_nat (zlength b)) with (length b) by (unfold zlength; lia).
  pose proof (string2hex_loop_spec b [] extra []
                (replicate (Z.to_nat (2 * zlength b + 1)) None)) as L.
  cbn [app map] in L. change (zlength []) with 0 in L.
  rewrite L; clear L.
  - cbn [mbind res_mbind res_bind].
    replace (drop (2 * length b) (replicate (Z.to_nat (2 * zlength b + 1)) None))
      with [@None ascii].
    + rewrite Z.add_0_l.
      replace (2 * zlength b) with (zlength (map Some (hex_text b))) at 1
        by (rewrite zlength_map; unfold zlength; rewrite length_hex_text; lia).
      rewrite store_middle. cbn [mbind res_mbind res_bind].
      rewrite insert_insert_eq, map_app. reflexivity.
    + rewrite drop_replicate.
      replace (Z.to_nat (2 * zlength b + 1) - 2 * length b)%nat with 1%nat
        by (unfold zlength; lia).
      reflexivity.
  - reflexivity.
  - rewrite length_replicate. unfold zlength. lia.
Qed.

(** An invalid length: the sentinel, and nothing is written. *)
Lemma string2hex_invalid_length buf buf_len hexbuf hexbuf_len h :
  INT_MIN <= buf_len <= INT_MAX ->
  buf_len < 0 \/ INT_MAX < 2 * buf_len ->
  string2hex char_is_signed buf buf_len hexbuf hexbuf_len h
  = Val (S2hOut (-1) None None, h).
Proof.
  intros Hint Hbad. unfold string2hex.
  destruct (Z.ltb_spec buf_len 0) as [H0|H0]; [reflexivity|].
  destruct Hbad as [Hneg|Hov]; [lia|].
  apply doubling_wraps_below in Hov; [|lia].
  apply Z.ltb_lt in Hov. rewrite Hov. reflexivity.
Qed.

(** The size query (no destination) on a valid length. *)
Lemma string2hex_size_query buf buf_len hexbuf_len h :
  0 <= buf_len -> 2 * buf_len <= INT_MAX ->
  string2hex char_is_signed buf buf_len false hexbuf_len h
  = Val (S2hOut (2 * buf_len) None
           (if hexbuf_len then Some (2 * buf_len) else None), h).
Proof.
  intros H0 Hlen. unfold string2hex.
  rewrite wrap_int_small by (unfold INT_MIN, INT_MAX in *; lia).
  destruct (Z.ltb_spec buf_len 0) as [H|_]; [lia|].
  destruct (Z.ltb_spec (2 * buf_len) buf_len) as [H|_]; [lia|].
  reflexivity.
Qed.

(** The allocation fails: the sentinel, and the null pointer is left in
    the destination. *)
Lemma string2hex_no_memory buf buf_len hexbuf_len h :
  0 <= buf_len -> 2 * buf_len <= INT_MAX -> room h = 0%nat ->
  string2hex char_is_signed buf buf_len true hexbuf_len h
  = Val (S2hOut (-1) (Some NULL) None, h).
Proof.
  intros H0 Hlen Hroom. unfold string2hex.
  rewrite wrap_int_small by (unfold INT_MIN, INT_MAX in *; lia).
  destruct (Z.ltb_spec buf_len 0) as [H|_]; [lia|].
  destruct (Z.ltb_spec (2 * buf_len) buf_len) as [H|_]; [lia|].
  cbn [orb negb]. unfold OPENSSL_malloc, alloc. rewrite Hroom. reflexivity.
Qed.

(** C6: a byte sequence whose doubled length fits an [int], encoded into
    a destination.  One block of [2 * len + 1] bytes is asked for.  When
    the allocation succeeds the block is new; it holds at [2i] and
    [2i + 1] the lowercase digits of the high and of the low nibble of
    byte [i], and the terminator at [2 * len]; the call returns
    [2 * len]; and reading the text back gives the bytes.  When the
    allocation fails the null pointer is stored in the destination, the
    call returns -1, the length out-parameter is not written and the
    heap is as it was. *)
Theorem string2hex_encodes (b : list ascii) (hexbuf_len : bool) (h : nheap) :
  2 * zlength b <= INT_MAX ->
  let p := fresh_addr h in
  let text := hex_text b in
  (room h ≠ 0%nat ->
   string2hex char_is_signed b (zlength b) true hexbuf_len h
   = Val (S2hOut (2 * zlength b) (Some p)
            (if hexbuf_len then Some (2 * zlength b) else None),
          Heap (<[p := NBytes (map Some (text ++ [NUL]))]> (cells h))
               (pred (room h))))
  /\ (room h = 0%nat ->
      string2hex char_is_signed b (zlength b) true hexbuf_len h
      = Val (S2hOut (-1) (Some NULL) None, h))
  /\ p ≠ NULL /\ cells h !! p = None
  /\ zlength (map Some (text ++ [NUL])) = 2 * zlength b + 1
  /\ (forall i c, b !! i = Some c ->
        text !! (2 * i)%nat = Some (hex_digit (hi_nibble c)) /\
        text !! (2 * i + 1)%nat = Some (hex_digit (lo_nibble c)))
  /\ (text ++ [NUL]) !! (2 * length b)%nat = Some NUL
  /\ hex_decode text = Some b.
Proof.
  intros Hlen p text.
  destruct (fresh_addr_spec h) as [Hnull Hfresh].
  split; [|split]; [| |repeat split].
  - intros Hroom. destruct (room h) as [|r] eqn:Er; [contradiction|].
    pose proof (string2hex_fills b [] hexbuf_len h r Hlen Er) as H.
    rewrite app_nil_r in H. exact H.
  - intros Hroom. apply string2hex_no_memory; [apply zlength_nonneg|assumption..].
  - assumption.
  - assumption.
  - rewrite zlength_map, zlength_app. unfold zlength, text.
    rewrite length_hex_text. cbn [length]. lia.
  - apply (hex_text_lookup b i c H).
  - apply (hex_text_lookup b i c H).
  - rewrite <- (length_hex_text b). apply list_lookup_middle. reflexivity.
  - apply hex_decode_text.
Qed.

(** C7: the call returns (when a destination is to be filled, [buf] has
    to hold the [buf_len] bytes that are read), and it returns the
    sentinel -1 exactly when the length is negative, or its double does
    not fit an [int] (which is what the wrap-around test finds), or a
    destination is asked for and the allocation fails.  In the first two
    cases neither out-parameter is written; in the third the null
    pointer has been stored in the destination. *)
Theorem string2hex_sentinel buf buf_len hexbuf hexbuf_len h :
  INT_MIN <= buf_len <= INT_MAX ->
  (hexbuf = true -> 2 * buf_len <= INT_MAX -> buf_len <= zlength buf) ->
  exists out h',
    string2hex char_is_signed buf buf_len hexbuf hexbuf_len h = Val (out, h')
    /\ (s2h_ret out = -1 <->
        buf_len < 0 \/ INT_MAX < 2 * buf_len \/ (hexbuf = true /\ room h = 0%nat))
    /\ (buf_len < 0 \/ INT_MAX < 2 * buf_len ->
        out = S2hOut (-1) None None /\ h' = h)
    /\ (0 <= buf_len -> 2 * buf_len <= INT_MAX -> hexbuf = true -> room h = 0%nat ->
        out = S2hOut (-1) (Some NULL) None /\ h' = h)
    /\ (0 <= buf_len -> (wrap_int (2 * buf_len) < buf_len <-> INT_MAX < 2 * buf_len)).
Proof.
  intros Hint Hread.
  assert (Hwrap : 0 <= buf_len ->
            (wrap_int (2 * buf_len) < buf_len <-> INT_MAX < 2 * buf_len))
    by (intros; apply doubling_wraps_below; lia).
  destruct (Z_lt_le_dec buf_len 0) as [Hneg|Hnn];
    [|destruct (Z_lt_le_dec INT_MAX (2 * buf_len)) as [Hov|Hok]].
  - eexists _, _. split; [apply string2hex_invalid_length; [assumption|lia]|].
    cbn [s2h_ret]. repeat split; try tauto; try lia.
  - eexists _, _. split; [apply string2hex_invalid_length; [assumption|lia]|].
    cbn [s2h_ret]. repeat split; try tauto; try lia.
  - destruct hexbuf.
    + specialize (Hread eq_refl Hok).
      destruct (room h) as [|r] eqn:Er.
      * eexists _, _. split; [apply string2hex_no_memory; assumption|].
        cbn [s2h_ret]. repeat split; try tauto; try lia.
      * assert (Hb : zlength (take (Z.to_nat buf_len) buf) = buf_len)
          by (unfold zlength in *; rewrite length_take_le; lia).
        pose proof (string2hex_fills (take (Z.to_nat buf_len) buf)
                      (drop (Z.to_nat buf_len) buf) hexbuf_len h r) as F.
        rewrite take_drop, Hb in F. specialize (F Hok Er).
        eexists _, _. split; [exact F|].
        cbn [s2h_ret].
        repeat split; try tauto; try lia.
        all: try (intros [H|[H|[_ H]]]; first [lia | discriminate]).
        all: try (intros [H|H]; lia).
        all: intros; discriminate.
    + eexists _, _. split; [apply string2hex_size_query; assumption|].
      cbn [s2h_ret]. repeat split; try tauto; try lia.
      all: try (intros [H|[H|[H _]]]; first [lia | discriminate]).
      all: try (intros [H|H]; lia).
      all: intros; discriminate.
Qed.

End HexFacts.

(** The two bytes ["Az"], with room for the allocation. *)
Lemma string2hex_encodes_witness :
  Hex.string2hex true (cstr "Az") 2 true true (Heap ∅ 1)
  = Val (Hex.S2hOut 4 (Some 1%nat) (Some 4),
         Heap (<[1%nat := NBytes (map Some (cstr "417a" ++ [NUL]))]> ∅) 0)
  /\ Hex.hex_decode (cstr "417a") = Some (cstr "Az").
Proof.
  destruct (string2hex_encodes true (cstr "Az") true (Heap ∅ 1))
    as (H & _ & _ & _ & _ & _ & _ & Hd).
  - vm_compute. discriminate.
  - split; [apply H; discriminate | exact Hd].
Defined.

(** C6, as stated, fails: the same two bytes when the allocator has no
    memory left.  The call returns -1, not 4, and no text is produced. *)
Lemma string2hex_allocation_failure :
  Hex.string2hex true (cstr "Az") 2 true true (Heap ∅ 0)
  = Val (Hex.S2hOut (-1) (Some NULL) None, Heap ∅ 0)
  /\ -1 <> 2 * zlength (cstr "Az").
Proof. split; [reflexivity | discriminate]. Qed.

(** A negative length. *)
Lemma string2hex_sentinel_witness :
  Hex.string2hex true [] (-1) true true (Heap ∅ 1)
  = Val (Hex.S2hOut (-1) None None, Heap ∅ 1).
Proof.
  destruct (string2hex_sentinel true [] (-1) true true (Heap ∅ 1))
    as (out & h' & E & _ & Hinv & _).
  - split; discriminate.
  - intros _ _. discriminate.
  - destruct (Hinv (or_introl eq_refl)) as [-> ->]. exact E.
Defined.

(** C7, as stated, fails: the empty input, length 0, with a destination
    and an allocator without memory.  The length is not negative and its
    double does not overflow, yet the call returns the sentinel, and it
    has written the destination (with the null pointer). *)
Lemma string2hex_sentinel_on_valid_length :
  Hex.string2hex false [] 0 true false (Heap ∅ 0)
  = Val (Hex.S2hOut (-1) (Some NULL) None, Heap ∅ 0)
  /\ ~ (0 < 0 \/ wrap_int (2 * 0) < 0).
Proof.
  split; [reflexivity|]. intros [H|H]; discriminate H.
Qed.

(** ** The certificate sequence converter *)

Section MonadFacts.

Context {S A B : Type}.

Lemma ST_bind_val (c : ST S A) (k : A -> ST S B) s a s' :
  c s = (Val a, s') -> (c ≫= k) s = k a s'.
Proof. intros H. unfold mbind, ST_mbind, ST_bind. now rewrite H. Qed.

Lemma ST_bind_raised (c : ST S A) (k : A -> ST S B) s e s' :
  c s = (Raised e, s') -> (c ≫= k) s = (Raised e, s').
Proof. intros H. unfold mbind, ST_mbind, ST_bind. now rewrite H. Qed.

Lemma ST_bind_fault (c : ST S A) (k : A -> ST S B) s f s' :
  c s = (Fault f, s') -> (c ≫= k) s = (Fault f, s').
Proof. intros H. unfold mbind, ST_mbind, ST_bind. now rewrite H. Qed.

End MonadFacts.

Section ConvertFacts.

Variable BUFSIZ : Z.
Variable full reason : Z -> list ascii.
Variable objspace : VALUE -> option robj.

Lemma set_heap_set_heap h1 h2 w : set_heap h2 (set_heap h1 w) = set_heap h2 w.
Proof. reflexivity. Qed.

Lemma set_heap_same w : set_heap (heap w) w = w.
Proof. destruct w; reflexivity. Qed.

(** [ossl_raise] does not return, and it leaves the native heap alone. *)
Lemma ossl_raise_format_heap fmt w r w' :
  ossl_raise_format BUFSIZ full reason fmt w = (r, w') -> heap w' = heap w.
Proof.
  unfold ossl_raise_format, ERR_get_error.
  unfold mbind, mret, ST_mbind, ST_mret, ST_bind, lift, get_state,
    ERR_clear_error, modify.
  destruct (err_queue w) as [|e q];
    destruct fmt as [text|];
    repeat match goal with
           | |- context [match ?x with _ => _ end] => destruct x
           end;
    intros H; injection H as _ <-; reflexivity.
Qed.

(** The memory operations fault or succeed; only [rb_exc_raise] raises. *)
Lemma store_all_no_raise (cs : list ascii) :
  forall (b : block) off e, store_all b off cs <> Raised e.
Proof.
  induction cs as [|c cs IH]; intros b off e; [discriminate|].
  cbn [store_all]. unfold store.
  destruct ((0 <=? off) && (off <? zlength b)); [apply IH | discriminate].
Qed.

Lemma load_all_no_raise (n : nat) :
  forall (b : block) off e, load_all b off n <> Raised e.
Proof.
  induction n as [|n IH]; intros b off e; [discriminate|].
  cbn [load_all]. unfold read.
  destruct (off <? 0); [discriminate|].
  destruct (b !! Z.to_nat off) as [[c|]|]; cbn; try discriminate.
  specialize (IH b (off + 1)).
  destruct (load_all b (off + 1) n) as [l|x|f]; cbn; try discriminate.
  intros H. apply (IH e). congruence.
Qed.

Lemma snprintf_no_raise (b : block) off size text e :
  snprintf b off size text <> Raised e.
Proof.
  unfold snprintf. destruct (size =? 0); [discriminate|].
  pose proof (store_all_no_raise
                (take (Z.to_nat (zlength text `min` (size - 1))) text ++ [NUL])
                b off) as H.
  destruct (store_all b off _); cbn; try discriminate.
  intros E. injection E as ->. exact (H _ eq_refl).
Qed.

Lemma ossl_raise_format_no_raise fmt w e w' :
  ossl_raise_format BUFSIZ full reason fmt w <> (Raised e, w').
Proof.
  unfold ossl_raise_format, ERR_get_error.
  unfold mbind, mret, ST_mbind, ST_mret, ST_bind, lift, get_state,
    ERR_clear_error, modify.
  set (buf0 := replicate (Z.to_nat BUFSIZ) (@None ascii)).
  assert (P : forall (text : list ascii) e',
             ('(buf, n) ← snprintf buf0 0 (to_size_t BUFSIZ) text;
              '(buf1, n') ← snprintf buf n (to_size_t (BUFSIZ - n)) (cstr ": ");
              Val (buf1, n + n')) <> Raised e').
  { intros text e'. unfold mbind, res_mbind, res_bind.
    pose proof (snprintf_no_raise buf0 0 (to_size_t BUFSIZ) text) as H1.
    destruct (snprintf buf0 0 (to_size_t BUFSIZ) text) as [[b n]|x|f];
      [|intros E; apply (H1 e'); congruence|discriminate].
    pose proof (snprintf_no_raise b n (to_size_t (BUFSIZ - n)) (cstr ": ")) as H2.
    destruct (snprintf b n (to_size_t (BUFSIZ - n)) (cstr ": ")) as [[b' n']|x|f];
      [discriminate|intros E; apply (H2 e'); congruence|discriminate]. }
  assert (Q : forall (b : block) n (text : list ascii) (s : world) e' s',
             match snprintf b n (to_size_t (BUFSIZ - n)) text with
             | Val a => (let '(buf, m) := a in fun s0 : world => (Val (buf, n + m), s0)) s
             | Raised x => (Raised x, s)
             | Fault f => (Fault f, s)
             end <> (Raised e', s')).
  { intros b n text s e' s'.
    pose proof (snprintf_no_raise b n (to_size_t (BUFSIZ - n)) text) as H.
    destruct (snprintf b n (to_size_t (BUFSIZ - n)) text) as [[b' m]|x|f];
      [discriminate|intros E; apply (H e'); congruence
      |discriminate]. }
  unfold mbind in P.
  destruct (err_queue w) as [|x q]; destruct fmt as [text|]; cbn [negb Z.eqb].
  - specialize (P text).
    destruct (res_mbind _ _ _ (snprintf buf0 0 _ text)) as [[b n]|y|f];
      [discriminate|intros E; apply (P e); congruence|discriminate].
  - discriminate.
  - specialize (P text).
    destruct (res_mbind _ _ _ (snprintf buf0 0 _ text)) as [[b n]|y|f];
      [|intros E; apply (P e); congruence|discriminate].
    destruct (negb (x =? 0)); [apply Q | discriminate].
  - destruct (negb (x =? 0)); [apply Q | discriminate].
Qed.

Lemma ossl_raise_outcome {A} exc fmt w :
  exists w', heap w' = heap w /\
    ((exists msg, @ossl_raise BUFSIZ full reason A exc fmt w
                  = (Raised (Exn exc msg), w')) \/
     (exists f, @ossl_raise BUFSIZ full reason A exc fmt w = (Fault f, w'))).
Proof.
  unfold ossl_raise.
  destruct (ossl_raise_format BUFSIZ full reason fmt w) as [[[buf len]|e|f] w']
    eqn:E; pose proof (ossl_raise_format_heap _ _ _ _ E) as Hh;
    exists w'; (split; [exact Hh|]).
  - rewrite (ST_bind_val _ _ _ _ _ E).
    unfold mbind, ST_mbind, ST_bind, lift, rb_exc_new, res_mbind, rb_exc_raise.
    pose proof (load_all_no_raise (Z.to_nat len) buf 0) as Hl.
    destruct (load_all buf 0 (Z.to_nat len)) as [msg|e|f]; cbn.
    + left. eexists. reflexivity.
    + exfalso. exact (Hl _ eq_refl).
    + right. eexists. reflexivity.
  - exfalso. exact (ossl_raise_format_no_raise _ _ _ _ E).
  - right. exists f. apply (ST_bind_fault _ _ _ _ _ E).
Qed.

(** The outcome of [ossl_raise] does not depend on the type of the value
    it never returns. *)
Lemma ossl_raise_retype {A B} exc fmt w :
  @ossl_raise BUFSIZ full reason B exc fmt w
  = match @ossl_raise BUFSIZ full reason A exc fmt w with
    | (Val _, w') => (Fault (InvalidPointer NULL), w')
    | (Raised e, w') => (Raised e, w')
    | (Fault f, w') => (Fault f, w')
    end.
Proof.
  unfold ossl_raise, mbind, ST_mbind, ST_bind, lift, rb_exc_raise.
  destruct (ossl_raise_format BUFSIZ full reason fmt w) as [[[b n]|e|f] w'];
    try reflexivity.
  destruct (rb_exc_new exc b n); reflexivity.
Qed.

(** Releasing the elements of a stack one after the other. *)
Lemma for_each_X509_free (ps : list nat) :
  forall w,
    for_each X509_free ps w
    = (Val tt, set_heap (foldl (fun h p => free p h) (heap w) ps) w).
Proof.
  induction ps as [|p ps IH]; intros w.
  - cbn. now rewrite set_heap_same.
  - cbn [for_each foldl].
    rewrite (ST_bind_val (X509_free p) _ w tt (set_heap (free p (heap w)) w))
      by reflexivity.
    rewrite IH. reflexivity.
Qed.

Lemma free_all_cells (ps : list nat) :
  forall h,
    NoDup ps ->
    (forall p, p ∈ ps -> is_Some (cells h !! p)) ->
    (forall i, cells (foldl (fun h p => free p h) h ps) !! i
               = if decide (i ∈ ps) then None else cells h !! i) /\
    room (foldl (fun h p => free p h) h ps) = (room h + length ps)%nat.
Proof.
  induction ps as [|p ps IH]; intros h Hnd Hlive.
  - split; [|cbn; lia]. intros i. cbn.
    destruct (decide (i ∈ [])) as [Hin|_]; [|reflexivity].
    apply elem_of_nil in Hin. contradiction.
  - apply NoDup_cons in Hnd as [Hp Hnd].
    cbn [foldl].
    destruct (Hlive p ltac:(left)) as [c Hc].
    assert (Hfree : free p h = Heap (delete p (cells h)) (S (room h)))
      by (unfold free; now rewrite Hc).
    rewrite Hfree.
    destruct (IH (Heap (delete p (cells h)) (S (room h))) Hnd) as [IHc IHr].
    { intros q Hq. cbn [cells]. rewrite lookup_delete_ne.
      - apply Hlive. now right.
      - intros ->. contradiction. }
    split.
    + intros i. rewrite IHc. cbn [cells].
      destruct (decide (i ∈ ps)) as [Hi|Hi].
      * rewrite decide_True by now right. reflexivity.
      * destruct (decide (i = p)) as [->|Hne].
        -- rewrite decide_True by now left. apply lookup_delete_eq.
        -- rewrite decide_False.
           ++ apply lookup_delete_ne. congruence.
           ++ intros Hin. apply elem_of_cons in Hin as [?|?]; contradiction.
    + rewrite IHr. cbn [room length]. lia.
Qed.

(** [sk_X509_pop_free] on the stack being built gives back the heap of
    the entry: the duplicates and the stack are released. *)
Lemma pop_free_restores h0 sk ps w :
  building h0 sk ps (heap w) ->
  sk_X509_pop_free sk X509_free w = (Val tt, set_heap h0 w).
Proof.
  intros (Hsk & Hsk0 & Hnd & Hps & Hother & Hroom).
  unfold sk_X509_pop_free.
  rewrite (ST_bind_val get_state _ w w w) by reflexivity.
  rewrite Hsk.
  rewrite (ST_bind_val _ _ _ _ _ (for_each_X509_free ps w)).
  unfold modify. cbn [heap set_heap].
  destruct (free_all_cells ps (heap w) Hnd) as [Hc Hr].
  { intros p Hp. destruct (Hps p Hp) as [_ [der ->]]. eauto. }
  set (h1 := foldl (fun h p => free p h) (heap w) ps) in *.
  assert (Hnotin : sk ∉ ps).
  { intros Hin. destruct (Hps sk Hin) as [_ [der Hd]]. congruence. }
  assert (Hsk1 : cells h1 !! sk = Some (NStack ps))
    by (rewrite Hc, decide_False by assumption; exact Hsk).
  unfold free. rewrite Hsk1.
  f_equal. unfold set_heap. cbn [dOSSL err_queue events heap].
  f_equal. destruct h0 as [c0 r0]. cbn [cells room] in *. f_equal.
  - apply map_eq. intros i.
    destruct (decide (i = sk)) as [->|Hne].
    + rewrite lookup_delete_eq. congruence.
    + rewrite lookup_delete_ne by congruence. rewrite Hc.
      destruct (decide (i ∈ ps)) as [Hi|Hi].
      * destruct (Hps i Hi) as [-> _]. reflexivity.
      * apply Hother; assumption.
  - lia.
Qed.

(** One certificate: its duplicate is allocated and pushed. *)
Lemma ary2sk_step h0 sk ps w val x der r :
  building h0 sk ps (heap w) ->
  objspace val = Some (RX509Cert x) ->
  cells h0 !! x = Some (NX509 der) ->
  room (heap w) = S r ->
  exists w1,
    building h0 sk (ps ++ [fresh_addr (heap w)]) (heap w1) /\
    room (heap w1) = r /\
    set_heap h0 w1 = set_heap h0 w /\
    (x509 ← DupX509CertPtr BUFSIZ full reason objspace val;
     sk_X509_push sk x509) w = (Val tt, w1).
Proof.
  intros (Hsk & Hsk0 & Hnd & Hps & Hother & Hroom) Hval Hx Hr.
  destruct (fresh_addr_spec (heap w)) as [Hnull Hfresh].
  set (p := fresh_addr (heap w)) in *.
  assert (Hpsk : p ≠ sk) by congruence.
  assert (Hpps : p ∉ ps).
  { intros Hin. destruct (Hps p Hin) as [_ [d Hd]]. congruence. }
  assert (Hxlive : cells (heap w) !! x = Some (NX509 der)).
  { rewrite Hother; [assumption|congruence|].
    intros Hin. destruct (Hps x Hin) as [Hn _]. congruence. }
  set (h1 := Heap (<[p := NX509 der]> (cells (heap w))) r).
  set (h2 := Heap (<[sk := NStack (ps ++ [p])]> (cells h1)) r).
  exists (set_heap h2 w). split; [|split; [reflexivity|split; [reflexivity|]]].
  - unfold building, h2, h1. cbn [heap set_heap cells room].
    split; [apply lookup_insert_eq|].
    split; [assumption|].
    split.
    { apply NoDup_app. split; [assumption|]. split.
      - intros q Hq Hq'. apply list_elem_of_singleton in Hq' as ->. contradiction.
      - apply NoDup_singleton. }
    split.
    { intros q Hq. apply elem_of_app in Hq as [Hq|Hq].
      - destruct (Hps q Hq) as [Hq0 [d Hd]]. split; [assumption|].
        exists d. rewrite lookup_insert_ne by congruence.
        rewrite lookup_insert_ne by (intros ->; contradiction). assumption.
      - apply list_elem_of_singleton in Hq as ->. split.
        + rewrite <- Hother by assumption. assumption.
        + exists der. rewrite lookup_insert_ne by congruence.
          apply lookup_insert_eq. }
    split.
    { intros i Hi Hin. rewrite lookup_insert_ne by congruence.
      rewrite lookup_insert_ne.
      - apply Hother; [assumption|]. intros Hi'. apply Hin.
        apply elem_of_app. now left.
      - intros ->. apply Hin. apply elem_of_app. right.
        now apply list_elem_of_singleton. }
    rewrite length_app. cbn [length]. lia.
  - assert (Hdup : DupX509CertPtr BUFSIZ full reason objspace val w
                   = (Val p, set_heap h1 w)).
    { unfold DupX509CertPtr. rewrite Hval.
      rewrite (ST_bind_val get_state _ w w w) by reflexivity.
      rewrite Hxlive.
      assert (Hd : X509_dup der w = (Val p, set_heap h1 w)).
      { unfold X509_dup, alloc. rewrite Hr. reflexivity. }
      rewrite (ST_bind_val _ _ _ _ _ Hd).
      destruct (Nat.eqb_spec p NULL) as [E|_]; [contradiction|]. reflexivity. }
    rewrite (ST_bind_val _ _ _ _ _ Hdup).
    unfold sk_X509_push.
    rewrite (ST_bind_val get_state _ _ (set_heap h1 w) (set_heap h1 w))
      by reflexivity.
    cbn [heap set_heap]. unfold h1 at 1. cbn [cells].
    rewrite lookup_insert_ne by congruence. rewrite Hsk. reflexivity.
Qed.

(** The loop on certificates followed by an element that is none: the
    stack and the duplicates are released, and the complaint is raised
    from the heap of the entry. *)
Lemma ary2sk_loop_rejects h0 sk v rest (pre : list VALUE) :
  forall ps w,
    building h0 sk ps (heap w) ->
    Forall (fun val => exists x der,
              objspace val = Some (RX509Cert x) /\
              cells h0 !! x = Some (NX509 der)) pre ->
    is_X509Cert objspace v = false ->
    (length pre <= room (heap w))%nat ->
    ary2sk_loop BUFSIZ full reason objspace sk (pre ++ v :: rest) w
    = @ossl_raise BUFSIZ full reason unit eOSSLError (Some not_a_cert_text)
        (set_heap h0 w).
Proof.
  induction pre as [|val pre IH]; intros ps w Hb Hpre Hv Hroom.
  - cbn [app ary2sk_loop]. rewrite Hv. cbn [negb].
    destruct (ossl_raise_outcome (A:=unit) eOSSLError (Some not_a_cert_text)
                (set_heap h0 w)) as (w' & _ & [[msg E]|[f E]]).
    + assert (E1 : (_ ← sk_X509_pop_free sk X509_free;
                    ossl_raise_ BUFSIZ full reason eOSSLError
                      (Some (cstr "object except X509 cert is in array"))) w
                   = (@Raised unit (Exn eOSSLError msg), w')).
      { rewrite (ST_bind_val _ _ _ _ _ (pop_free_restores _ _ _ _ Hb)). exact E. }
      rewrite (ST_bind_raised _ _ _ _ _ E1).
      unfold ossl_raise_. rewrite E. reflexivity.
    + assert (E1 : (_ ← sk_X509_pop_free sk X509_free;
                    ossl_raise_ BUFSIZ full reason eOSSLError
                      (Some (cstr "object except X509 cert is in array"))) w
                   = (@Fault unit f, w')).
      { rewrite (ST_bind_val _ _ _ _ _ (pop_free_restores _ _ _ _ Hb)). exact E. }
      rewrite (ST_bind_fault _ _ _ _ _ E1).
      unfold ossl_raise_. rewrite E. reflexivity.
  - inversion Hpre as [|? ? (x & der & Hval & Hx) Hpre']; subst.
    cbn [app ary2sk_loop].
    assert (Hcert : is_X509Cert objspace val = true)
      by (unfold is_X509Cert; now rewrite Hval).
    rewrite Hcert. cbn [negb].
    rewrite (ST_bind_val (mret tt) _ w tt w) by reflexivity.
    destruct (room (heap w)) as [|r] eqn:Er; [cbn in Hroom; lia|].
    destruct (ary2sk_step h0 sk ps w val x der r Hb Hval Hx Er)
      as (w1 & Hb1 & Hr1 & Hw1 & Estep).
    assert (E2 : forall k : M unit,
               (x509 ← DupX509CertPtr BUFSIZ full reason objspace val;
                _ ← sk_X509_push sk x509; k) w = k w1).
    { intros k. revert Estep.
      unfold mbind, ST_mbind, ST_bind.
      destruct (DupX509CertPtr BUFSIZ full reason objspace val w) as [[p|e|f] w2];
        [|discriminate..].
      destruct (sk_X509_push sk p w2) as [[[]|e|f] w3]; [|discriminate..].
      intros E. injection E as ->. reflexivity. }
    rewrite E2.
    rewrite (IH _ w1 Hb1 Hpre' Hv) by (cbn in Hroom; lia).
    rewrite Hw1. reflexivity.
Qed.

Lemma ary2sk_rejects ary pre v rest w :
  objspace ary = Some (RArray (pre ++ v :: rest)) ->
  Forall (fun val => exists x der,
            objspace val = Some (RX509Cert x) /\
            cells (heap w) !! x = Some (NX509 der)) pre ->
  is_X509Cert objspace v = false ->
  (length pre < room (heap w))%nat ->
  ossl_x509_ary2sk BUFSIZ full reason objspace ary w
  = @ossl_raise BUFSIZ full reason nat eOSSLError (Some not_a_cert_text) w.
Proof.
  intros Hary Hpre Hv Hroom.
  unfold ossl_x509_ary2sk, Check_Type_ARRAY. rewrite Hary.
  rewrite (ST_bind_val (mret (pre ++ v :: rest)) _ w _ w) by reflexivity.
  destruct (room (heap w)) as [|r] eqn:Er; [lia|].
  destruct (fresh_addr_spec (heap w)) as [Hnull Hfresh].
  set (sk := fresh_addr (heap w)) in *.
  set (h1 := Heap (<[sk := NStack []]> (cells (heap w))) r).
  assert (Hnew : sk_X509_new_null w = (Val sk, set_heap h1 w)).
  { unfold sk_X509_new_null, alloc. rewrite Er. reflexivity. }
  rewrite (ST_bind_val _ _ _ _ _ Hnew).
  destruct (Nat.eqb_spec sk NULL) as [E|_]; [contradiction|].
  rewrite (ST_bind_val (mret tt) _ _ tt (set_heap h1 w)) by reflexivity.
  assert (Hb : building (heap w) sk [] (heap (set_heap h1 w))).
  { unfold building, h1. cbn [heap set_heap cells room length].
    split; [apply lookup_insert_eq|]. split; [assumption|].
    split; [apply NoDup_nil_2|]. split.
    - intros p Hp. apply elem_of_nil in Hp. contradiction.
    - split; [|lia]. intros i Hi _. apply lookup_insert_ne. congruence. }
  pose proof (ary2sk_loop_rejects (heap w) sk v rest pre [] (set_heap h1 w)
                Hb Hpre Hv) as L.
  rewrite set_heap_set_heap, set_heap_same in L.
  specialize (L ltac:(cbn; lia)).
  unfold ossl_raise_ in L.
  destruct (ossl_raise_outcome (A:=unit) eOSSLError (Some not_a_cert_text) w)
    as (w' & _ & [[msg E]|[f E]]); rewrite E in L.
  - rewrite (ST_bind_raised _ _ _ _ _ L).
    rewrite (ossl_raise_retype (A:=unit) (B:=nat)), E. reflexivity.
  - rewrite (ST_bind_fault _ _ _ _ _ L).
    rewrite (ossl_raise_retype (A:=unit) (B:=nat)), E. reflexivity.
Qed.

End ConvertFacts.

(** C2: an array whose first element that is no certificate comes after
    the certificates [pre], when the stack and the duplicates of [pre]
    can be allocated.  The converter ends as [ossl_raise] of the generic
    library error [eOSSLError] (not a TypeError) with the complaint about
    the element, started from the state of the entry: the stack and the
    duplicates have been released, the native heap is the one of the
    entry, and no stack is returned. *)
Theorem ary2sk_rejects_non_certificate BUFSIZ full reason objspace
    ary pre v rest w :
  0 < BUFSIZ <= INT_MAX ->
  objspace ary = Some (RArray (pre ++ v :: rest)) ->
  Forall (fun val => exists x der,
            objspace val = Some (RX509Cert x) /\
            cells (heap w) !! x = Some (NX509 der)) pre ->
  is_X509Cert objspace v = false ->
  (length pre < room (heap w))%nat ->
  let r := ossl_x509_ary2sk BUFSIZ full reason objspace ary w in
  r = @ossl_raise BUFSIZ full reason nat eOSSLError (Some not_a_cert_text) w /\
  heap (snd r) = heap w /\
  (forall sk, fst r <> Val sk) /\
  (forall e, fst r = Raised e ->
     exn_class e = eOSSLError /\ exn_class e <> rb_eTypeError) /\
  (err_queue w = [] -> zlength not_a_cert_text + 2 < BUFSIZ ->
   r = (Raised (Exn eOSSLError (not_a_cert_text ++ cstr ": ")), w)) /\
  (forall e q, err_queue w = e :: q -> e <> 0 ->
   zlength not_a_cert_text + 2 + zlength (native_text full reason (dOSSL w) e)
     < BUFSIZ ->
   r = (Raised (Exn eOSSLError
                  (not_a_cert_text ++ cstr ": " ++
                   native_text full reason (dOSSL w) e)),
        set_err_queue [] w)).
Proof.
  intros HB Hary Hpre Hv Hroom r.
  assert (Er : r = @ossl_raise BUFSIZ full reason nat eOSSLError
                     (Some not_a_cert_text) w)
    by (apply (ary2sk_rejects _ _ _ _ _ pre v rest); assumption).
  destruct (ossl_raise_format_fits BUFSIZ full reason HB not_a_cert_text w)
    as [F0 F1].
  destruct (ossl_raise_outcome BUFSIZ full reason (A:=nat) eOSSLError
              (Some not_a_cert_text) w) as (w' & Hh & [[msg E]|[f E]]);
    (split; [exact Er|]); rewrite Er, E; cbn [fst snd].
  - split; [exact Hh|]. split; [discriminate|]. split.
    + intros e He. injection He as <-. cbn. split; [reflexivity|discriminate].
    + rewrite <- E. split.
      * intros Hq Hfit. destruct (F0 Hq Hfit) as (junk & Ef).
        apply (ossl_raise_of_format BUFSIZ full reason _ _ _ _ junk _ Ef).
      * intros e q Hq He Hfit. destruct (F1 e q Hq He Hfit) as (junk & Ef).
        apply (ossl_raise_of_format BUFSIZ full reason _ _ _ _ junk _ Ef).
  - split; [exact Hh|]. split; [discriminate|]. split; [discriminate|].
    rewrite <- E. split.
    + intros Hq Hfit. destruct (F0 Hq Hfit) as (junk & Ef).
      apply (ossl_raise_of_format BUFSIZ full reason _ _ _ _ junk _ Ef).
    + intros e q Hq He Hfit. destruct (F1 e q Hq He Hfit) as (junk & Ef).
      apply (ossl_raise_of_format BUFSIZ full reason _ _ _ _ junk _ Ef).
Qed.

(** Two certificates, a String, a certificate. *)
Lemma ary2sk_rejects_non_certificate_witness :
  ossl_x509_ary2sk 8192 sample_error_string sample_reason_error_string
    sample_objspace 28 cert_world
  = (Raised (Exn eOSSLError (cstr "object except X509 cert is in array: ")),
     cert_world).
Proof.
  assert (R : 0 < 8192 <= INT_MAX) by (unfold INT_MAX; lia).
  destruct (ary2sk_rejects_non_certificate 8192 sample_error_string
              sample_reason_error_string sample_objspace 28 [20; 24] 12 [20]
              cert_world R) as (_ & _ & _ & _ & H & _).
  - reflexivity.
  - constructor; [|constructor; [|constructor]];
      exists 1%nat, (cstr "DER"); split; reflexivity.
  - reflexivity.
  - cbn. lia.
  - apply H; reflexivity.
Defined.

(** C2, as stated, fails: on that array the error is of class
    [eOSSLError], the generic error of the library, not a TypeError. *)
Lemma ary2sk_raises_library_error :
  exists msg,
    fst (ossl_x509_ary2sk 8192 sample_error_string sample_reason_error_string
           sample_objspace 28 cert_world)
    = Raised (Exn eOSSLError msg)
    /\ exn_class (Exn eOSSLError msg) <> rb_eTypeError.
Proof.
  exists (cstr "object except X509 cert is in array: ").
  split; [vm_compute; reflexivity | discriminate].
Qed.

(** * Further properties *)

(** ** The verification callback, closure present *)

Section VerifyMore.

Variable ossl_x509stctx_new : ST vstate VALUE.
Variable rb_funcall_call : VALUE -> VALUE -> VALUE -> ST vstate VALUE.

Local Abbreviation verify_cb := (ossl_verify_cb ossl_x509stctx_new rb_funcall_call).

(** X1: a closure that returns exactly [Qtrue] overrides the native
    verdict.  Whatever [ok] was (0 included) and whatever error code the
    native library had recorded, the callback returns 1 and the error
    code is [X509_V_OK]; the associations are as the closure left them. *)
Theorem verify_cb_true_overrides ok s rctx s1 s2 :
  resolved_proc (vctx s) ≠ 0 -> resolved_proc (vctx s) ≠ Qnil ->
  ossl_x509stctx_new s = (Val rctx, s1) ->
  rb_funcall_call (resolved_proc (vctx s)) (if ok =? 0 then Qfalse else Qtrue)
    rctx s1 = (Val Qtrue, s2) ->
  exists s',
    verify_cb ok s = (Val 1, s') /\
    ctx_error (vctx s') = X509_V_OK /\
    ctx_ex_data (vctx s') = ctx_ex_data (vctx s2) /\
    store_ex_data (vctx s') = store_ex_data (vctx s2).
Proof.
  intros H0 Hn Hnew Hcall. eexists. split.
  - apply (verify_cb_accept _ _ ok s rctx s1 s2); assumption.
  - repeat split.
Qed.

(** X2: a closure that returns anything but the exact [Qtrue] rejects,
    be the value truthy (an integer, a string) or not.  The callback
    returns 0 whatever [ok] was; the error code becomes
    [X509_V_ERR_CERT_REJECTED] when it was [X509_V_OK] after the closure
    ran, and a recorded error is kept. *)
Theorem verify_cb_other_value_rejects ok s rctx s1 ret s2 :
  resolved_proc (vctx s) ≠ 0 -> resolved_proc (vctx s) ≠ Qnil ->
  ossl_x509stctx_new s = (Val rctx, s1) ->
  rb_funcall_call (resolved_proc (vctx s)) (if ok =? 0 then Qfalse else Qtrue)
    rctx s1 = (Val ret, s2) ->
  ret ≠ Qtrue ->
  exists s',
    verify_cb ok s = (Val 0, s') /\
    (ctx_error (vctx s2) = X509_V_OK ->
     ctx_error (vctx s') = X509_V_ERR_CERT_REJECTED) /\
    (ctx_error (vctx s2) ≠ X509_V_OK ->
     ctx_error (vctx s') = ctx_error (vctx s2)).
Proof.
  intros H0 Hn Hnew Hcall Hret. eexists. split.
  - apply (verify_cb_reject_value _ _ ok s rctx s1 ret s2); assumption.
  - unfold rejected. cbn [with_detached vctx].
    destruct (Z.eqb_spec (ctx_error (vctx s2)) X509_V_OK) as [E|E]; split;
      intros H; first [reflexivity | contradiction].
Qed.

(** X3: when the wrapper of the context cannot be built the certificate
    is rejected without the closure being run: the outcome is the same
    for every closure, and no wrapper is detached. *)
Theorem verify_cb_no_wrapper_rejects
    (other_call : VALUE -> VALUE -> VALUE -> ST vstate VALUE) ok s e s1 :
  resolved_proc (vctx s) ≠ 0 -> resolved_proc (vctx s) ≠ Qnil ->
  ossl_x509stctx_new s = (Raised e, s1) ->
  verify_cb ok s = (Val 0, rejected s1) /\
  ossl_verify_cb ossl_x509stctx_new other_call ok s = verify_cb ok s /\
  detached (rejected s1) = detached s1.
Proof.
  intros H0 Hn Hnew. repeat split.
  - apply (verify_cb_reject_new _ _ ok s e s1); assumption.
  - rewrite (verify_cb_reject_new _ other_call ok s e s1) by assumption.
    rewrite (verify_cb_reject_new _ rb_funcall_call ok s e s1) by assumption.
    reflexivity.
  - unfold rejected. destruct (ctx_error (vctx s1) =? X509_V_OK); reflexivity.
Qed.

(** X4: a wrapper that was built is detached from the context exactly
    once, after the closure and whether the closure returned or raised. *)
Theorem verify_cb_detaches_wrapper ok s rctx s1 r s2 :
  resolved_proc (vctx s) ≠ 0 -> resolved_proc (vctx s) ≠ Qnil ->
  ossl_x509stctx_new s = (Val rctx, s1) ->
  rb_funcall_call (resolved_proc (vctx s)) (if ok =? 0 then Qfalse else Qtrue)
    rctx s1 = (r, s2) ->
  (forall f, r ≠ Fault f) ->
  detached (snd (verify_cb ok s)) = detached s2 ++ [rctx].
Proof.
  intros H0 Hn Hnew Hcall Hr. destruct r as [ret|e|f].
  - destruct (Z.eq_dec ret Qtrue) as [->|Hne].
    + rewrite (verify_cb_accept _ _ ok s rctx s1 s2) by assumption. reflexivity.
    + rewrite (verify_cb_reject_value _ _ ok s rctx s1 ret s2) by assumption.
      unfold rejected. cbn [snd].
      destruct (ctx_error (vctx (with_detached rctx s2)) =? X509_V_OK);
        reflexivity.
  - rewrite (verify_cb_closure_raises _ _ ok s rctx s1 e s2) by assumption.
    reflexivity.
  - exfalso. exact (Hr f eq_refl).
Qed.

(** X5: with a closure present, what the callback returns and the error
    code it leaves agree: when it returns, it returns 1 with the error
    code [X509_V_OK], or 0 with an error code that is not [X509_V_OK]. *)
Theorem verify_cb_verdict_matches_error ok s n s' :
  resolved_proc (vctx s) ≠ 0 -> resolved_proc (vctx s) ≠ Qnil ->
  verify_cb ok s = (Val n, s') ->
  (n = 1 /\ ctx_error (vctx s') = X509_V_OK) \/
  (n = 0 /\ ctx_error (vctx s') ≠ X509_V_OK).
Proof.
  intros H0 Hn.
  assert (Hrej : forall t, ctx_error (vctx (rejected t)) ≠ X509_V_OK).
  { intros t. unfold rejected.
    destruct (Z.eqb_spec (ctx_error (vctx t)) X509_V_OK) as [E|E];
      [discriminate | exact E]. }
  destruct (ossl_x509stctx_new s) as [[rctx|e|f] s1] eqn:Hnew.
  - destruct (rb_funcall_call (resolved_proc (vctx s))
                (if ok =? 0 then Qfalse else Qtrue) rctx s1) as [[ret|e|f] s2]
      eqn:Hcall.
    + destruct (Z.eq_dec ret Qtrue) as [->|Hne].
      * rewrite (verify_cb_accept _ _ ok s rctx s1 s2) by assumption.
        intros E. injection E as <- <-. left. split; reflexivity.
      * rewrite (verify_cb_reject_value _ _ ok s rctx s1 ret s2) by assumption.
        intros E. injection E as <- <-. right. split; [reflexivity|apply Hrej].
    + rewrite (verify_cb_closure_raises _ _ ok s rctx s1 e s2) by assumption.
      discriminate.
    + rewrite verify_cb_unfold by assumption.
      unfold mbind, ST_mbind, ST_bind, rb_protect, rb_ensure.
      rewrite Hnew, Hcall. discriminate.
  - rewrite (verify_cb_reject_new _ _ ok s e s1) by assumption.
    intros E. injection E as <- <-. right. split; [reflexivity|apply Hrej].
  - rewrite verify_cb_unfold by assumption.
    unfold mbind, ST_mbind, ST_bind, rb_protect. rewrite Hnew. discriminate.
Qed.

(** X24: with a closure present, [ok] matters only through whether it
    is zero: the closure is handed [Qtrue] or [Qfalse], and two nonzero
    values of [ok] give the same outcome (whereas without a closure [ok]
    itself is returned). *)
Theorem verify_cb_preverify_is_boolean ok ok' s :
  resolved_proc (vctx s) ≠ 0 -> resolved_proc (vctx s) ≠ Qnil ->
  ok ≠ 0 -> ok' ≠ 0 ->
  verify_cb ok s = verify_cb ok' s.
Proof.
  intros H0 Hn Hok Hok'.
  rewrite (verify_cb_unfold _ _ ok s H0 Hn), (verify_cb_unfold _ _ ok' s H0 Hn).
  apply Z.eqb_neq in Hok, Hok'. rewrite Hok, Hok'. reflexivity.
Qed.

End VerifyMore.

(** The native library had failed the certificate ([ok] is 0, error 7);
    the closure of the store says [Qtrue]. *)
Lemma verify_cb_true_overrides_witness :
  let r := ossl_verify_cb (mret 48) (fun _ _ _ => mret Qtrue) 0
             (VState (StoreCtx 0 40 7) []) in
  fst r = Val 1 /\ ctx_error (vctx (snd r)) = X509_V_OK.
Proof.
  destruct (verify_cb_true_overrides (mret 48) (fun _ _ _ => mret Qtrue) 0
              (VState (StoreCtx 0 40 7) []) 48
              (VState (StoreCtx 0 40 7) []) (VState (StoreCtx 0 40 7) []))
    as (s' & E & He & _).
  - discriminate.
  - discriminate.
  - reflexivity.
  - reflexivity.
  - cbv zeta. rewrite E. split; [reflexivity | exact He].
Defined.

(** The closure returns the integer 1, which is truthy, on a certificate
    the native library had accepted. *)
Lemma verify_cb_other_value_rejects_witness :
  let r := ossl_verify_cb (mret 48) (fun _ _ _ => mret (INT2FIX 1)) 1
             (VState (StoreCtx 40 0 X509_V_OK) []) in
  fst r = Val 0 /\ ctx_error (vctx (snd r)) = X509_V_ERR_CERT_REJECTED.
Proof.
  destruct (verify_cb_other_value_rejects (mret 48)
              (fun _ _ _ => mret (INT2FIX 1)) 1
              (VState (StoreCtx 40 0 X509_V_OK) []) 48
              (VState (StoreCtx 40 0 X509_V_OK) []) (INT2FIX 1)
              (VState (StoreCtx 40 0 X509_V_OK) []))
    as (s' & E & He & _).
  - discriminate.
  - discriminate.
  - reflexivity.
  - reflexivity.
  - discriminate.
  - cbv zeta. rewrite E. split; [reflexivity | apply He; reflexivity].
Defined.

(** The construction of the wrapper raises. *)
Lemma verify_cb_no_wrapper_rejects_witness :
  ossl_verify_cb (rb_exc_raise (Exn rb_eRuntimeError (cstr "no memory")))
    (fun _ _ _ => mret Qtrue) 1 (VState (StoreCtx 40 0 X509_V_OK) [])
  = (Val 0, VState (StoreCtx 40 0 X509_V_ERR_CERT_REJECTED) []).
Proof.
  destruct (verify_cb_no_wrapper_rejects
              (rb_exc_raise (Exn rb_eRuntimeError (cstr "no memory")))
              (fun _ _ _ => mret Qtrue) (fun _ _ _ => mret Qfalse) 1
              (VState (StoreCtx 40 0 X509_V_OK) [])
              (Exn rb_eRuntimeError (cstr "no memory"))
              (VState (StoreCtx 40 0 X509_V_OK) []))
    as (E & _).
  - discriminate.
  - discriminate.
  - reflexivity.
  - exact E.
Defined.

(** A closure that raises: the wrapper 48 is detached all the same. *)
Lemma verify_cb_detaches_wrapper_witness :
  detached (snd (ossl_verify_cb (mret 48)
                   (fun _ _ _ => rb_exc_raise (Exn rb_eRuntimeError (cstr "boom")))
                   1 (VState (StoreCtx 40 0 X509_V_OK) [])))
  = [48].
Proof.
  apply (verify_cb_detaches_wrapper (mret 48)
           (fun _ _ _ => rb_exc_raise (Exn rb_eRuntimeError (cstr "boom")))
           1 (VState (StoreCtx 40 0 X509_V_OK) []) 48
           (VState (StoreCtx 40 0 X509_V_OK) [])
           (Raised (Exn rb_eRuntimeError (cstr "boom")))
           (VState (StoreCtx 40 0 X509_V_OK) [])).
  - discriminate.
  - discriminate.
  - reflexivity.
  - reflexivity.
  - discriminate.
Defined.

(** A closure that returns [nil] on a context whose error is 7. *)
Lemma verify_cb_verdict_matches_error_witness :
  (0 = 1 /\ 7 = X509_V_OK) \/ (0 = 0 /\ 7 ≠ X509_V_OK).
Proof.
  apply (verify_cb_verdict_matches_error (mret 48) (fun _ _ _ => mret Qnil) 1
           (VState (StoreCtx 40 0 7) []) 0 (VState (StoreCtx 40 0 7) [48])).
  - discriminate.
  - discriminate.
  - reflexivity.
Defined.

(** The values 1 and -1 of [ok], with a closure that returns what it is
    handed. *)
Lemma verify_cb_preverify_is_boolean_witness :
  ossl_verify_cb (mret 48) (fun _ pre _ => mret pre) 1
    (VState (StoreCtx 40 0 7) [])
  = ossl_verify_cb (mret 48) (fun _ pre _ => mret pre) (-1)
      (VState (StoreCtx 40 0 7) []).
Proof.
  apply (verify_cb_preverify_is_boolean (mret 48) (fun _ pre _ => mret pre)
           1 (-1) (VState (StoreCtx 40 0 7) [])); discriminate.
Defined.

(** ** The error channel: null format, footprint, queue *)

Section ErrorChannelMore.

Variable BUFSIZ : Z.
Variable full reason : Z -> list ascii.

(** What [ossl_raise_format] does to the state: it consumes the error
    queue and nothing else. *)
Lemma ossl_raise_format_footprint fmt w r w' :
  ossl_raise_format BUFSIZ full reason fmt w = (r, w') ->
  dOSSL w' = dOSSL w /\ heap w' = heap w /\ events w' = events w /\
  ((forall x, r <> Val x) \/ err_queue w = [] \/
   (exists q, err_queue w = 0 :: q) \/ err_queue w' = []).
Proof.
  unfold ossl_raise_format, ERR_get_error.
  unfold mbind, mret, ST_mbind, ST_mret, ST_bind, lift, get_state,
    ERR_clear_error, modify.
  destruct (err_queue w) as [|e q] eqn:Eq;
    [|destruct (Z.eqb_spec e 0) as [->|Hne]];
    destruct fmt as [text|]; cbn [negb];
    repeat match goal with
           | |- context [match ?x with _ => _ end] => destruct x
           end;
    intros H; injection H as <- <-; cbn;
    repeat split; eauto; try (left; discriminate).
Qed.

(** X6: with a null format nothing precedes the native message, not even
    the separator.  With an empty error queue the message is empty; with
    an entry, and when its text fits the buffer, the message is that text
    alone (the full diagnostic text when the debug flag is exactly
    [Qtrue], the reason string otherwise) and the queue is cleared. *)
Theorem ossl_raise_without_prefix A (exc : rclass) (w : world) :
  (err_queue w = [] ->
   @ossl_raise BUFSIZ full reason A exc None w = (Raised (Exn exc []), w)) /\
  (0 < BUFSIZ <= INT_MAX ->
   forall e q, err_queue w = e :: q -> e ≠ 0 ->
   zlength (native_text full reason (dOSSL w) e) < BUFSIZ ->
   @ossl_raise BUFSIZ full reason A exc None w
   = (Raised (Exn exc (native_text full reason (dOSSL w) e)),
      set_err_queue [] w)).
Proof.
  split.
  - intros Hq. unfold ossl_raise, ossl_raise_format, ERR_get_error.
    unfold mbind, ST_mbind, ST_bind. rewrite Hq. reflexivity.
  - intros HB e q Hq He Hfit.
    pose proof (zlength_nonneg (native_text full reason (dOSSL w) e)) as Hn.
    apply (ossl_raise_of_format BUFSIZ full reason exc None w _
             (Some NUL :: drop (S (length (native_text full reason (dOSSL w) e)))
                            (replicate (Z.to_nat BUFSIZ) None))).
    unfold ossl_raise_format, ERR_get_error.
    unfold mbind at 1, ST_mbind, ST_bind. rewrite Hq.
    unfold mbind at 1, mret at 1, ST_mbind, ST_mret, ST_bind.
    apply Z.eqb_neq in He. rewrite He. cbn [negb].
    unfold mbind, mret, ST_mbind, ST_mret, ST_bind, get_state, ERR_clear_error,
      modify, lift.
    cbn [dOSSL set_err_queue].
    fold (native_text full reason (dOSSL w) e).
    rewrite Z.sub_0_r, to_size_t_small by lia.
    pose proof (snprintf_extend [] (native_text full reason (dOSSL w) e)
                  (replicate (Z.to_nat BUFSIZ) None) BUFSIZ) as H1.
    cbn [map app] in H1. change (zlength []) with 0 in H1.
    rewrite H1 by (rewrite ?zlength_replicate; lia).
    reflexivity.
Qed.

(** X7: what a raise leaves behind.  The exception is of the class that
    was asked for; the debug flag, the native heap and the emitted output
    are untouched; and the error queue is empty afterwards, however many
    entries it held, so that no stale entry is left for a later
    failure. *)
Theorem ossl_raise_clears_queue A (exc : rclass) fmt (w : world) e w' :
  @ossl_raise BUFSIZ full reason A exc fmt w = (Raised e, w') ->
  Forall (fun x => x ≠ 0) (err_queue w) ->
  exn_class e = exc /\
  err_queue w' = [] /\
  dOSSL w' = dOSSL w /\ heap w' = heap w /\ events w' = events w.
Proof.
  intros E Hq. unfold ossl_raise in E.
  destruct (ossl_raise_format BUFSIZ full reason fmt w) as [[[buf len]|x|f] w1]
    eqn:Ef.
  - rewrite (ST_bind_val _ _ _ _ _ Ef) in E.
    unfold mbind, ST_mbind, ST_bind, lift, rb_exc_new, res_mbind, res_bind,
      rb_exc_raise in E.
    destruct (ossl_raise_format_footprint _ _ _ _ Ef) as (Hd & Hh & He & Hc).
    pose proof (load_all_no_raise (Z.to_nat len) buf 0) as Hl.
    destruct (load_all buf 0 (Z.to_nat len)) as [msg|x|f];
      [|exfalso; exact (Hl x eq_refl)|discriminate].
    injection E as <- <-. repeat split; try assumption.
    destruct Hc as [Hc|[Hc|[[q Hc]|Hc]]].
    + exfalso. exact (Hc _ eq_refl).
    + revert Ef. unfold ossl_raise_format, ERR_get_error.
      unfold mbind, mret, ST_mbind, ST_mret, ST_bind, lift. rewrite Hc.
      destruct fmt as [text|]; cbn;
        repeat match goal with
               | |- context [match ?x with _ => _ end] => destruct x
               end;
        intros H; try discriminate; injection H as _ _ <-; assumption.
    + rewrite Hc in Hq. inversion Hq as [|? ? Hx _]. contradiction.
    + assumption.
  - exfalso. exact (ossl_raise_format_no_raise _ _ _ _ _ _ _ Ef).
  - rewrite (ST_bind_fault _ _ _ _ _ Ef) in E. discriminate.
Qed.

(** X8: only the oldest entry of the error queue is reported.  Whatever
    follows it in the queue, the outcome is the same, and so is the state
    left behind by a raise: the later entries are dropped unread. *)
Theorem ossl_raise_reads_oldest_entry A (exc : rclass) fmt (w : world) e q q' :
  e ≠ 0 ->
  let r := @ossl_raise BUFSIZ full reason A exc fmt (set_err_queue (e :: q) w) in
  let r' := @ossl_raise BUFSIZ full reason A exc fmt (set_err_queue (e :: q') w) in
  fst r = fst r' /\ (forall x, fst r = Raised x -> snd r = snd r').
Proof.
  intros He r r'. apply Z.eqb_neq in He.
  assert (F : let f := ossl_raise_format BUFSIZ full reason fmt
                         (set_err_queue (e :: q) w) in
              let f' := ossl_raise_format BUFSIZ full reason fmt
                          (set_err_queue (e :: q') w) in
              fst f = fst f' /\ (forall v, fst f = Val v -> snd f = snd f')).
  { unfold ossl_raise_format, ERR_get_error.
    unfold mbind, mret, ST_mbind, ST_mret, ST_bind, lift, get_state,
      ERR_clear_error, modify.
    cbn [err_queue set_err_queue]. rewrite He. cbn [negb].
    destruct fmt as [text|].
    - destruct (res_mbind _ _ _ (snprintf _ 0 _ text)) as [[b n]|x|f];
        [|split; [reflexivity|discriminate]..].
      cbn [dOSSL set_err_queue err_queue heap events].
      destruct (snprintf b n _ _) as [[b' n']|x|f];
        (split; [reflexivity|]); intros v Hv; first [reflexivity|discriminate Hv].
    - cbn [dOSSL set_err_queue err_queue heap events].
      destruct (snprintf _ 0 _ _) as [[b' n']|x|f];
        (split; [reflexivity|]); intros v Hv; first [reflexivity|discriminate Hv]. }
  cbv zeta in F. destruct F as [F1 F2].
  unfold r, r', ossl_raise, mbind, ST_mbind, ST_bind, lift, rb_exc_raise.
  destruct (ossl_raise_format BUFSIZ full reason fmt (set_err_queue (e :: q) w))
    as [[[b n]|x|f] w1] eqn:E1;
    destruct (ossl_raise_format BUFSIZ full reason fmt (set_err_queue (e :: q') w))
      as [[[b' n']|x'|f'] w1']; cbn [fst snd] in *; try discriminate F1.
  - injection F1 as -> ->. specialize (F2 _ eq_refl). subst w1'.
    destruct (rb_exc_new exc b' n'); (split; [reflexivity|]);
      intros y Hy; reflexivity.
  - exfalso. exact (ossl_raise_format_no_raise _ _ _ _ _ _ _ E1).
  - injection F1 as ->. split; [reflexivity|discriminate].
Qed.

End ErrorChannelMore.

(** A null format, with the [BUFSIZ] of glibc and one queued entry. *)
Lemma ossl_raise_without_prefix_witness :
  @ossl_raise 8192 sample_error_string sample_reason_error_string unit
    eOSSLError None (set_err_queue [218529960] idle)
  = (Raised (Exn eOSSLError (cstr "wrong tag")), idle).
Proof.
  destruct (ossl_raise_without_prefix 8192 sample_error_string
              sample_reason_error_string unit eOSSLError
              (set_err_queue [218529960] idle)) as [_ H].
  apply (H ltac:(unfold INT_MAX; lia) 218529960 []).
  - reflexivity.
  - discriminate.
  - vm_compute. reflexivity.
Defined.

(** Three queued entries and the prefix ["x"]. *)
Lemma ossl_raise_clears_queue_witness :
  err_queue (snd (@ossl_raise 8192 sample_error_string
                    sample_reason_error_string unit eOSSLError
                    (Some (cstr "x")) (set_err_queue [1; 2; 3] idle)))
  = [].
Proof.
  assert (R : 0 < 8192 <= INT_MAX) by (unfold INT_MAX; lia).
  destruct (ossl_raise_format_fits 8192 sample_error_string
              sample_reason_error_string R (cstr "x")
              (set_err_queue [1; 2; 3] idle)) as [_ F].
  destruct (F 1 [2; 3]) as (junk & Ef);
    [reflexivity | discriminate | vm_compute; reflexivity |].
  pose proof (ossl_raise_of_format 8192 sample_error_string
                sample_reason_error_string (A:=unit) eOSSLError _ _ _ junk _ Ef)
    as E.
  destruct (ossl_raise_clears_queue 8192 sample_error_string
              sample_reason_error_string unit eOSSLError (Some (cstr "x"))
              (set_err_queue [1; 2; 3] idle) _ _ E) as (_ & H & _).
  - repeat constructor; discriminate.
  - rewrite E. exact H.
Defined.

(** The entry 1 followed by nothing, or by two more entries. *)
Lemma ossl_raise_reads_oldest_entry_witness :
  fst (@ossl_raise 8192 sample_error_string sample_reason_error_string unit
         eOSSLError (Some (cstr "x")) (set_err_queue [1] idle))
  = fst (@ossl_raise 8192 sample_error_string sample_reason_error_string unit
           eOSSLError (Some (cstr "x")) (set_err_queue [1; 2; 3] idle)).
Proof.
  destruct (ossl_raise_reads_oldest_entry 8192 sample_error_string
              sample_reason_error_string unit eOSSLError (Some (cstr "x")) idle
              1 [] [2; 3]) as [H _].
  - discriminate.
  - exact H.
Defined.

(** ** The debug flag over several calls *)

Lemma ossl_debug_set_cases val w :
  ossl_debug_set val w =
  (Val val,
   if dOSSL w =? val then set_dOSSL val w
   else if val =? Qtrue then
     emit (Stderr "OSSL_DEBUG: IS NOW ON!
") (emit (MemCtrl true) (set_dOSSL val w))
   else if dOSSL w =? Qtrue then
     emit (Stderr "OSSL_DEBUG: IS NOW OFF!
") (emit (MemCtrl false) (set_dOSSL val w))
   else set_dOSSL val w).
Proof.
  unfold ossl_debug_set.
  unfold mbind, ST_mbind, ST_bind, get_state, modify, mret, ST_mret; cbn.
  destruct (dOSSL w =? val); cbn; [reflexivity|].
  destruct (val =? Qtrue); cbn; [reflexivity|].
  destruct (dOSSL w =? Qtrue); reflexivity.
Qed.

Lemma mem_check_app evs evs' :
  mem_check (evs ++ evs') =
  foldl (fun on e => match e with MemCtrl b => b | _ => on end)
        (mem_check evs) evs'.
Proof. unfold mem_check. apply foldl_app. Qed.

Lemma last_cons_default {A} (l : list A) :
  forall a d d', List.last (a :: l) d = List.last (a :: l) d'.
Proof.
  induction l as [|b l IH]; intros a d d'; [reflexivity|].
  change (List.last (b :: l) d = List.last (b :: l) d'). apply IH.
Qed.

(** X9: repeating a call changes nothing.  Setting the flag to the value
    it was just set to emits nothing and leaves the state as it is, for
    every value; in particular enabling twice runs the enable path once:
    from a flag that is not [Qtrue], the first [debug = true] emits the
    enabling of the instrumentation and its notice, and the second
    nothing. *)
Theorem debug_set_twice val w :
  let w1 := snd (ossl_debug_set val w) in
  ossl_debug_set val w1 = (Val val, w1) /\
  (val = Qtrue -> dOSSL w ≠ Qtrue ->
   events w1 = events w ++ [MemCtrl true; Stderr "OSSL_DEBUG: IS NOW ON!
"]).
Proof.
  cbv zeta. rewrite (ossl_debug_set_cases val w). cbn [snd]. split.
  - rewrite ossl_debug_set_cases.
    assert (Hd : forall w0, dOSSL w0 = val ->
              (if dOSSL w0 =? val then set_dOSSL val w0 else
               if val =? Qtrue then
                 emit (Stderr "OSSL_DEBUG: IS NOW ON!
") (emit (MemCtrl true) (set_dOSSL val w0))
               else if dOSSL w0 =? Qtrue then
                 emit (Stderr "OSSL_DEBUG: IS NOW OFF!
") (emit (MemCtrl false) (set_dOSSL val w0))
               else set_dOSSL val w0) = w0).
    { intros w0 <-. rewrite Z.eqb_refl. destruct w0; reflexivity. }
    rewrite Hd; [reflexivity|].
    destruct (dOSSL w =? val); [reflexivity|].
    destruct (val =? Qtrue); [reflexivity|].
    destruct (dOSSL w =? Qtrue); reflexivity.
  - intros -> Hw. apply Z.eqb_neq in Hw. rewrite Hw. cbn.
    rewrite <- app_assoc. reflexivity.
Qed.

(** X10: the instrumentation of the allocator follows the flag.  If it is
    on exactly when the flag is [Qtrue], it still is after any sequence
    of calls of the setter, and the flag holds the last value set; and no
    call of the setter switches the instrumentation to the state it is
    already in. *)
Theorem debug_set_tracks_instrumentation vals w :
  mem_check (events w) = (dOSSL w =? Qtrue) ->
  let w' := snd (debug_set_all vals w) in
  fst (debug_set_all vals w) = Val tt /\
  mem_check (events w') = (dOSSL w' =? Qtrue) /\
  dOSSL w' = List.last vals (dOSSL w) /\
  (forall v b,
     In (MemCtrl b) (drop (length (events w)) (events (snd (ossl_debug_set v w)))) ->
     mem_check (events w) = negb b).
Proof.
  intros Hinv. cbv zeta.
  assert (Hstep : forall v w0,
            mem_check (events w0) = (dOSSL w0 =? Qtrue) ->
            mem_check (events (snd (ossl_debug_set v w0)))
            = (dOSSL (snd (ossl_debug_set v w0)) =? Qtrue) /\
            dOSSL (snd (ossl_debug_set v w0)) = v).
  { intros v w0 H0. rewrite ossl_debug_set_cases. cbn [snd].
    destruct (Z.eqb_spec (dOSSL w0) v) as [E|E]; cbn [events dOSSL set_dOSSL emit].
    - split; [|reflexivity]. rewrite H0, E. reflexivity.
    - destruct (Z.eqb_spec v Qtrue) as [Ev|Ev]; cbn [events dOSSL set_dOSSL emit].
      + split; [|reflexivity]. rewrite <- app_assoc, mem_check_app.
        subst v. reflexivity.
      + destruct (Z.eqb_spec (dOSSL w0) Qtrue) as [Eo|Eo]; cbn [events dOSSL set_dOSSL emit].
        * split; [|reflexivity]. rewrite <- app_assoc, mem_check_app.
          apply Z.eqb_neq in Ev. rewrite Ev. reflexivity.
        * split; [|reflexivity]. rewrite H0.
          apply Z.eqb_neq in Ev. rewrite Ev. reflexivity. }
  split; [|split; [|split]].
  - clear Hinv. revert w. induction vals as [|v vals IH]; intros w; [reflexivity|].
    cbn [debug_set_all]. unfold mbind, ST_mbind, ST_bind.
    rewrite ossl_debug_set_cases. apply IH.
  - revert w Hinv. induction vals as [|v vals IH]; intros w Hinv; [exact Hinv|].
    cbn [debug_set_all]. unfold mbind, ST_mbind, ST_bind.
    destruct (Hstep v w Hinv) as [H1 _].
    rewrite ossl_debug_set_cases in *. cbn [snd] in H1. apply IH. exact H1.
  - revert w Hinv. induction vals as [|v vals IH]; intros w Hinv; [reflexivity|].
    cbn [debug_set_all]. unfold mbind, ST_mbind, ST_bind.
    destruct (Hstep v w Hinv) as [H1 H2].
    rewrite ossl_debug_set_cases in *. cbn [snd] in H1, H2.
    rewrite IH by exact H1. rewrite H2.
    destruct vals as [|v0 vals]; [reflexivity|].
    change (List.last (v :: v0 :: vals) (dOSSL w))
      with (List.last (v0 :: vals) (dOSSL w)).
    apply last_cons_default.
  - intros v b. rewrite ossl_debug_set_cases. cbn [snd]. rewrite Hinv.
    destruct (Z.eqb_spec (dOSSL w) v) as [E|E]; cbn [events dOSSL set_dOSSL emit].
    + rewrite drop_all. intros [].
    + destruct (Z.eqb_spec v Qtrue) as [Ev|Ev]; cbn [events dOSSL set_dOSSL emit].
      * rewrite <- app_assoc, drop_app_length. subst v.
        intros [H|[H|[]]]; [|discriminate]. injection H as <-.
        apply Z.eqb_neq in E. rewrite E. reflexivity.
      * destruct (Z.eqb_spec (dOSSL w) Qtrue) as [Eo|Eo]; cbn [events dOSSL set_dOSSL emit].
        -- rewrite <- app_assoc, drop_app_length.
           intros [H|[H|[]]]; [|discriminate]. injection H as <-. reflexivity.
        -- rewrite drop_all. intros [].
Qed.

(** X11: the debug output follows the exact value of the flag.  After
    [debug = v], [ossl_debug] writes its line (the tag, the text, the
    context note) when [v] is [Qtrue], and writes nothing for any other
    value, truthy ones included. *)
Theorem ossl_debug_after_set val text w :
  let w1 := snd (ossl_debug_set val w) in
  (val = Qtrue ->
   ossl_debug text w1
   = (Val tt, emit_all [Stderr "OSSL_DEBUG: "; Stderr text;
                        Stderr " [CONTEXT N/A]
"] w1)) /\
  (val ≠ Qtrue -> ossl_debug text w1 = (Val tt, w1)).
Proof.
  cbv zeta.
  assert (Hd : dOSSL (snd (ossl_debug_set val w)) = val).
  { rewrite ossl_debug_set_cases. cbn [snd].
    destruct (dOSSL w =? val); [reflexivity|].
    destruct (val =? Qtrue); [reflexivity|].
    destruct (dOSSL w =? Qtrue); reflexivity. }
  set (w1 := snd (ossl_debug_set val w)) in *.
  unfold ossl_debug, mbind, ST_mbind, ST_bind, get_state. rewrite Hd. split.
  - intros ->. cbn [Z.eqb Qtrue Pos.eqb].
    unfold fprintf_stderr, modify, emit_all, emit. cbn.
    rewrite <- !app_assoc. reflexivity.
  - intros Hv. apply Z.eqb_neq in Hv. rewrite Hv. reflexivity.
Qed.

(** [debug = true] on a fresh process, twice. *)
Lemma debug_set_twice_witness :
  events (snd (ossl_debug_set Qtrue idle))
  = [MemCtrl true; Stderr "OSSL_DEBUG: IS NOW ON!
"]
  /\ ossl_debug_set Qtrue (snd (ossl_debug_set Qtrue idle))
     = (Val Qtrue, snd (ossl_debug_set Qtrue idle)).
Proof.
  destruct (debug_set_twice Qtrue idle) as [H1 H2]. split.
  - apply H2; [reflexivity | discriminate].
  - exact H1.
Defined.

(** On, a truthy integer, off, on again, from a fresh process. *)
Lemma debug_set_tracks_instrumentation_witness :
  let w' := snd (debug_set_all [Qtrue; INT2FIX 1; Qfalse; Qtrue] idle) in
  mem_check (events w') = true /\ dOSSL w' = Qtrue.
Proof.
  destruct (debug_set_tracks_instrumentation [Qtrue; INT2FIX 1; Qfalse; Qtrue]
              idle) as (_ & H1 & H2 & _).
  - reflexivity.
  - cbv zeta. split; [rewrite H1, H2; reflexivity | exact H2].
Defined.

(** The flag set to the integer 1: no debug output. *)
Lemma ossl_debug_after_set_witness :
  ossl_debug "empty sk!" (snd (ossl_debug_set (INT2FIX 1) idle))
  = (Val tt, snd (ossl_debug_set (INT2FIX 1) idle)).
Proof.
  destruct (ossl_debug_after_set (INT2FIX 1) "empty sk!" idle) as [_ H].
  apply H. discriminate.
Defined.

(** ** The hex encoder: calling convention, portability, output *)

Section HexMore.

Import Hex.

Lemma string2hex_loop_signedness (n : nat) :
  forall i buf out,
    string2hex_loop true n i buf out = string2hex_loop false n i buf out.
Proof.
  induction n as [|n IH]; intros i buf out; [reflexivity|].
  cbn [string2hex_loop]. unfold mbind, res_mbind, res_bind.
  destruct (read buf i) as [c|e|f]; try reflexivity.
  destruct (read hex (Z.shiftr (uchar c) 4)) as [hi|e|f]; try reflexivity.
  destruct (store out (2 * i) hi) as [out1|e|f]; try reflexivity.
  rewrite (read_hex_lo true c), (read_hex_lo false c).
  destruct (store out1 (2 * i + 1) (hex_digit (lo_nibble c))) as [out2|e|f];
    try reflexivity.
  apply IH.
Qed.

(** X12: the encoder does not depend on whether plain [char] is signed.
    For every input and every state of the allocator the two variants of
    the platform give the same result: bytes from 128 up are encoded like
    the others. *)
Theorem string2hex_signedness_independent buf buf_len hexbuf hexbuf_len h :
  string2hex true buf buf_len hexbuf hexbuf_len h
  = string2hex false buf buf_len hexbuf hexbuf_len h.
Proof.
  unfold string2hex.
  destruct ((buf_len <? 0) || (wrap_int (2 * buf_len) <? buf_len));
    [reflexivity|].
  destruct (negb hexbuf); [reflexivity|].
  destruct (OPENSSL_malloc (wrap_int (2 * buf_len) + 1) h) as [p h1].
  destruct (Nat.eqb p NULL); [reflexivity|].
  destruct (cells h1 !! p) as [[out| |]|]; try reflexivity.
  rewrite string2hex_loop_signedness. reflexivity.
Qed.

Lemma hex_digit_is_hex_digit (c : ascii) :
  is_hex_digit (hex_digit (hi_nibble c)) = true /\
  is_hex_digit (hex_digit (lo_nibble c)) = true.
Proof. destruct c as [[] [] [] [] [] [] [] []]; vm_compute; split; reflexivity. Qed.

Lemma hex_text_digits (b : list ascii) :
  Forall (fun c => is_hex_digit c = true) (hex_text b).
Proof.
  induction b as [|c b IH]; [constructor|].
  cbn [hex_text flat_map app]. fold (hex_text b).
  destruct (hex_digit_is_hex_digit c) as [H1 H2].
  constructor; [exact H1|]. constructor; [exact H2|exact IH].
Qed.

Lemma is_hex_digit_not_NUL (c : ascii) :
  is_hex_digit c = true -> Ascii.eqb c NUL = false.
Proof. destruct c as [[] [] [] [] [] [] [] []]; vm_compute; congruence. Qed.

Lemma strlen_text (t : list ascii) (rest : block) :
  Forall (fun c => is_hex_digit c = true) t ->
  strlen (map Some (t ++ [NUL]) ++ rest) = Some (zlength t).
Proof.
  induction 1 as [|c t Hc Ht IH]; [reflexivity|].
  cbn [app map strlen]. rewrite (is_hex_digit_not_NUL c Hc).
  cbn [app map] in IH. rewrite IH.
  change (c :: t) with ([c] ++ t). rewrite zlength_app.
  change (zlength [c]) with 1. f_equal. lia.
Qed.

(** X13: the text the encoder produces is a C string of digits.  When a
    destination is filled, the block holds [2 * buf_len] characters that
    are all among [0-9a-f], followed by the only terminator of the block:
    [strlen] of the result is the length returned. *)
Theorem string2hex_output_is_hex_string sgn (b extra : list ascii)
    (hexbuf_len : bool) (h : nheap) :
  2 * zlength b <= INT_MAX -> room h ≠ 0%nat ->
  exists p text h',
    string2hex sgn (b ++ extra) (zlength b) true hexbuf_len h
    = Val (S2hOut (2 * zlength b) (Some p)
             (if hexbuf_len then Some (2 * zlength b) else None), h') /\
    cells h' !! p = Some (NBytes (map Some (text ++ [NUL]))) /\
    Forall (fun c => is_hex_digit c = true) text /\
    zlength text = 2 * zlength b /\
    strlen (map Some (text ++ [NUL])) = Some (2 * zlength b).
Proof.
  intros Hlen Hroom.
  destruct (room h) as [|r] eqn:Er; [contradiction|].
  exists (fresh_addr h), (hex_text b). eexists. split.
  - apply (string2hex_fills sgn b extra hexbuf_len h r Hlen Er).
  - cbn [cells]. split; [apply lookup_insert_eq|].
    split; [apply hex_text_digits|].
    assert (Hz : zlength (hex_text b) = 2 * zlength b)
      by (unfold zlength; rewrite length_hex_text; lia).
    split; [exact Hz|].
    rewrite <- Hz, <- (app_nil_r (map Some (hex_text b ++ [NUL]))).
    apply strlen_text, hex_text_digits.
Qed.

(** X14: the two phases of the calling convention agree.  On a valid
    length the call without a destination returns [2 * buf_len] without
    allocating and without reading [buf] (it may be shorter than
    [buf_len]); the call with a destination then returns that same
    length, in a new block of one byte more, and leaves every other block
    of the native heap as it was. *)
Theorem string2hex_two_phases sgn buf buf_len hexbuf_len h :
  0 <= buf_len -> 2 * buf_len <= INT_MAX ->
  string2hex sgn buf buf_len false hexbuf_len h
  = Val (S2hOut (2 * buf_len) None
           (if hexbuf_len then Some (2 * buf_len) else None), h) /\
  (buf_len <= zlength buf -> room h ≠ 0%nat ->
   exists p blk h',
     string2hex sgn buf buf_len true hexbuf_len h
     = Val (S2hOut (2 * buf_len) (Some p)
              (if hexbuf_len then Some (2 * buf_len) else None), h') /\
     cells h !! p = None /\
     cells h' !! p = Some (NBytes blk) /\
     zlength blk = 2 * buf_len + 1 /\
     (forall q, q ≠ p -> cells h' !! q = cells h !! q)).
Proof.
  intros H0 Hlen. split; [apply string2hex_size_query; assumption|].
  intros Hread Hroom.
  destruct (room h) as [|r] eqn:Er; [contradiction|].
  destruct (fresh_addr_spec h) as [_ Hfresh].
  assert (Hb : zlength (take (Z.to_nat buf_len) buf) = buf_len)
    by (unfold zlength in *; rewrite length_take_le; lia).
  pose proof (string2hex_fills sgn (take (Z.to_nat buf_len) buf)
                (drop (Z.to_nat buf_len) buf) hexbuf_len h r) as F.
  rewrite take_drop, Hb in F. specialize (F Hlen Er).
  eexists _, _, _. split; [exact F|]. cbn [cells].
  split; [exact Hfresh|]. split; [apply lookup_insert_eq|]. split.
  - rewrite zlength_map, zlength_app. unfold zlength at 1.
    rewrite length_hex_text. change (zlength [NUL]) with 1.
    unfold zlength in Hb. lia.
  - intros q Hq. apply lookup_insert_ne. congruence.
Qed.

(** X15: only the first [buf_len] bytes are read.  Whatever follows them
    in memory, the result is the same. *)
Theorem string2hex_reads_only_buf_len sgn (b extra extra' : list ascii)
    hexbuf hexbuf_len h :
  zlength b <= INT_MAX ->
  string2hex sgn (b ++ extra) (zlength b) hexbuf hexbuf_len h
  = string2hex sgn (b ++ extra') (zlength b) hexbuf hexbuf_len h.
Proof.
  intros Hint. pose proof (zlength_nonneg b) as Hb.
  destruct (Z_lt_le_dec INT_MAX (2 * zlength b)) as [Hov|Hok].
  - rewrite !string2hex_invalid_length
      by (unfold INT_MIN, INT_MAX in *; lia).
    reflexivity.
  - destruct hexbuf.
    + destruct (room h) as [|r] eqn:Er.
      * rewrite !string2hex_no_memory by assumption. reflexivity.
      * rewrite !(string2hex_fills sgn b _ hexbuf_len h r) by assumption.
        reflexivity.
    + rewrite !string2hex_size_query by assumption. reflexivity.
Qed.

End HexMore.

(** The bytes 0xff and 0x80, which are negative as signed characters. *)
Lemma string2hex_output_is_hex_string_witness :
  exists p text h',
    Hex.string2hex true [ascii_of_N 255; ascii_of_N 128] 2 true false (Heap ∅ 1)
    = Val (Hex.S2hOut 4 (Some p) None, h') /\
    cells h' !! p = Some (NBytes (map Some (text ++ [NUL]))) /\
    Forall (fun c => is_hex_digit c = true) text /\
    zlength text = 4 /\
    strlen (map Some (text ++ [NUL])) = Some 4.
Proof.
  apply (string2hex_output_is_hex_string true
           [ascii_of_N 255; ascii_of_N 128] [] false (Heap ∅ 1)).
  - vm_compute. discriminate.
  - discriminate.
Defined.

(** A size query for 3 bytes through a pointer to a single byte, then the
    filling call on three bytes. *)
Lemma string2hex_two_phases_witness :
  Hex.string2hex true (cstr "a") 3 false true (Heap ∅ 0)
  = Val (Hex.S2hOut 6 None (Some 6), Heap ∅ 0).
Proof.
  destruct (string2hex_two_phases true (cstr "a") 3 true (Heap ∅ 0)) as [H _].
  - discriminate.
  - vm_compute. discriminate.
  - exact H.
Defined.

(** Two bytes followed by nothing, or by more memory. *)
Lemma string2hex_reads_only_buf_len_witness :
  Hex.string2hex true (cstr "Az") 2 true true (Heap ∅ 1)
  = Hex.string2hex true (cstr "Azzz") 2 true true (Heap ∅ 1).
Proof.
  apply (string2hex_reads_only_buf_len true (cstr "Az") [] (cstr "zz")
           true true (Heap ∅ 1)).
  vm_compute. discriminate.
Defined.

(** ** The passphrase callback on every block *)

Section PassphraseMore.

Variable objspace : VALUE -> option robj.
Variable PEM_def_callback : block -> Z -> Z -> option (list ascii) -> M (Z * block).

Local Abbreviation passwd_cb := (ossl_pem_passwd_cb objspace PEM_def_callback).



(** X17: a native buffer of fewer than 4 bytes can never be served.  When
    [max_len] is below 4 no password is ever accepted: whatever the block
    does, the callback returns -1 with the buffer untouched, or it is
    still asking. *)
Theorem passwd_cb_small_buffer_never_succeeds buf max_len flag runs w :
  max_len < 4 -> max_len <= zlength buf ->
  exists ws,
    (passwd_cb buf max_len flag None (Some runs) w
     = (Val (Some (-1, buf)), emit_all ws w)) \/
    (passwd_cb buf max_len flag None (Some runs) w
     = (Val None, emit_all ws w) /\ length ws = length runs).
Proof.
  intros Hsmall Hbuf. unfold ossl_pem_passwd_cb.
  revert w. induction runs as [|run runs IH]; intros w.
  - exists []. right. rewrite emit_all_nil. split; reflexivity.
  - destruct (password_of objspace run (rflag_of flag)) as [s|] eqn:Hp.
    + assert (Hbad : wrap_int (zlength s) < 4 \/ max_len < wrap_int (zlength s))
        by lia.
      rewrite (passwd_loop_refused objspace run runs buf max_len flag w s Hp Hbad).
      destruct (IH (emit (retry_warning_of objspace max_len (rflag_of flag) run) w))
        as (ws & [E|[E Hl]]);
        exists (retry_warning_of objspace max_len (rflag_of flag) run :: ws);
        rewrite emit_all_cons.
      * left. exact E.
      * right. split; [exact E|]. cbn [length]. lia.
    + exists []. left. rewrite emit_all_nil.
      apply passwd_loop_raises. exact Hp.
Qed.

(** X18: a direct password, or the absence of a block, hands the request
    to the default callback of the native library: its result is returned
    as it is, and a block that is given beside a direct password is not
    run. *)
Theorem passwd_cb_delegates buf max_len flag pwd blk w :
  (exists p, pwd = Some p) \/ blk = None ->
  ossl_pem_passwd_cb objspace PEM_def_callback buf max_len flag pwd blk w
  = match PEM_def_callback buf max_len flag pwd w with
    | (Val r, w') => (Val (Some r), w')
    | (Raised e, w') => (Raised e, w')
    | (Fault f, w') => (Fault f, w')
    end /\
  ossl_pem_passwd_cb objspace PEM_def_callback buf max_len flag pwd blk w
  = ossl_pem_passwd_cb objspace PEM_def_callback buf max_len flag pwd None w.
Proof.
  intros H. unfold ossl_pem_passwd_cb, mbind, ST_mbind, ST_bind.
  destruct H as [[p ->]| ->].
  - destruct blk; split; reflexivity.
  - destruct pwd; split; reflexivity.
Qed.

(** X19: of [flag] only whether it is zero matters to the block: two
    nonzero flags (encryption) give the same run of the loop. *)
Theorem passwd_cb_flag_is_boolean buf max_len flag flag' runs w :
  flag ≠ 0 -> flag' ≠ 0 ->
  ossl_pem_passwd_cb objspace PEM_def_callback buf max_len flag None (Some runs) w
  = ossl_pem_passwd_cb objspace PEM_def_callback buf max_len flag' None (Some runs) w.
Proof.
  intros Hf Hf'. unfold ossl_pem_passwd_cb.
  assert (Hr : rflag_of flag = rflag_of flag').
  { unfold rflag_of. apply Z.eqb_neq in Hf, Hf'. rewrite Hf, Hf'. reflexivity. }
  revert w. induction runs as [|run runs IH]; intros w; [reflexivity|].
  destruct (password_of objspace run (rflag_of flag)) as [s|] eqn:Hp.
  - rewrite (passwd_loop_string objspace run runs buf max_len flag w s Hp).
    rewrite Hr in Hp.
    rewrite (passwd_loop_string objspace run runs buf max_len flag' w s Hp).
    cbv zeta.
    destruct (wrap_int (zlength s) <? 4); [apply IH|].
    destruct (max_len <? wrap_int (zlength s)); [apply IH|reflexivity].
  - rewrite (passwd_loop_raises objspace run runs buf max_len flag w Hp).
    rewrite Hr in Hp.
    rewrite (passwd_loop_raises objspace run runs buf max_len flag' w Hp).
    reflexivity.
Qed.

End PassphraseMore.


(** A buffer of 3 bytes and a block that answers ["secret"] twice. *)
Lemma passwd_cb_small_buffer_never_succeeds_witness :
  exists ws,
    (ossl_pem_passwd_cb sample_objspace sample_PEM_def_callback
       (replicate 3 None) 3 1 None
       (Some [fun _ => Yields 12; fun _ => Yields 12]) idle
     = (Val (Some (-1, replicate 3 None)), emit_all ws idle)) \/
    (ossl_pem_passwd_cb sample_objspace sample_PEM_def_callback
       (replicate 3 None) 3 1 None
       (Some [fun _ => Yields 12; fun _ => Yields 12]) idle
     = (Val None, emit_all ws idle) /\ length ws = 2%nat).
Proof.
  apply (passwd_cb_small_buffer_never_succeeds sample_objspace
           sample_PEM_def_callback (replicate 3 None) 3 1
           [fun _ => Yields 12; fun _ => Yields 12] idle).
  - reflexivity.
  - vm_compute. discriminate.
Defined.

(** A direct password beside a block. *)
Lemma passwd_cb_delegates_witness :
  ossl_pem_passwd_cb sample_objspace sample_PEM_def_callback
    (replicate 8 None) 8 1 (Some (cstr "direct"))
    (Some [fun _ => Yields 12]) idle
  = ossl_pem_passwd_cb sample_objspace sample_PEM_def_callback
      (replicate 8 None) 8 1 (Some (cstr "direct")) None idle.
Proof.
  destruct (passwd_cb_delegates sample_objspace sample_PEM_def_callback
              (replicate 8 None) 8 1 (Some (cstr "direct"))
              (Some [fun _ => Yields 12]) idle) as [_ H].
  - left. exists (cstr "direct"). reflexivity.
  - exact H.
Defined.

(** The flags 1 and 2. *)
Lemma passwd_cb_flag_is_boolean_witness :
  ossl_pem_passwd_cb sample_objspace sample_PEM_def_callback
    (replicate 8 None) 8 1 None (Some [fun _ => Yields 12]) idle
  = ossl_pem_passwd_cb sample_objspace sample_PEM_def_callback
      (replicate 8 None) 8 2 None (Some [fun _ => Yields 12]) idle.
Proof.
  apply (passwd_cb_flag_is_boolean sample_objspace sample_PEM_def_callback
           (replicate 8 None) 8 1 2 [fun _ => Yields 12] idle); discriminate.
Defined.

(** ** The certificate sequence converter: success and early failures *)

Section ConvertMore.

Variable BUFSIZ : Z.
Variable full reason : Z -> list ascii.
Variable objspace : VALUE -> option robj.

(** The element [val] of the array is a certificate whose native
    certificate holds [der] on the heap [h0]; [p] holds a copy of it on
    the heap [h]. *)
Local Abbreviation copy_of h0 h :=
  (fun (val : VALUE) (p : nat) =>
     exists x der,
       objspace val = Some (RX509Cert x) /\
       cells h0 !! x = Some (NX509 der) /\
       cells h !! p = Some (NX509 der)).

(** The heap after one certificate was duplicated and pushed. *)
Lemma ary2sk_step_heap h0 sk ps w val x der r :
  building h0 sk ps (heap w) ->
  objspace val = Some (RX509Cert x) ->
  cells h0 !! x = Some (NX509 der) ->
  room (heap w) = S r ->
  (x509 ← DupX509CertPtr BUFSIZ full reason objspace val;
   sk_X509_push sk x509) w
  = (Val tt,
     set_heap (Heap (<[sk := NStack (ps ++ [fresh_addr (heap w)])]>
                       (<[fresh_addr (heap w) := NX509 der]> (cells (heap w))))
                    r) w).
Proof.
  intros (Hsk & Hsk0 & Hnd & Hps & Hother & Hroom) Hval Hx Hr.
  destruct (fresh_addr_spec (heap w)) as [Hnull Hfresh].
  set (p := fresh_addr (heap w)) in *.
  assert (Hpsk : p ≠ sk) by congruence.
  assert (Hxlive : cells (heap w) !! x = Some (NX509 der)).
  { rewrite Hother; [assumption|congruence|].
    intros Hin. destruct (Hps x Hin) as [Hn _]. congruence. }
  set (h1 := Heap (<[p := NX509 der]> (cells (heap w))) r).
  assert (Hdup : DupX509CertPtr BUFSIZ full reason objspace val w
                 = (Val p, set_heap h1 w)).
  { unfold DupX509CertPtr. rewrite Hval.
    rewrite (ST_bind_val get_state _ w w w) by reflexivity.
    rewrite Hxlive.
    assert (Hd : X509_dup der w = (Val p, set_heap h1 w)).
    { unfold X509_dup, alloc. rewrite Hr. reflexivity. }
    rewrite (ST_bind_val _ _ _ _ _ Hd).
    destruct (Nat.eqb_spec p NULL) as [E|_]; [contradiction|]. reflexivity. }
  rewrite (ST_bind_val _ _ _ _ _ Hdup).
  unfold sk_X509_push.
  rewrite (ST_bind_val get_state _ _ (set_heap h1 w) (set_heap h1 w))
    by reflexivity.
  cbn [heap set_heap]. unfold h1 at 1. cbn [cells].
  rewrite lookup_insert_ne by congruence. rewrite Hsk. reflexivity.
Qed.

(** The loop on certificates only: every one is duplicated and pushed,
    in order. *)
Lemma ary2sk_loop_builds h0 sk (elts : list VALUE) :
  forall done ps w,
    building h0 sk ps (heap w) ->
    Forall2 (copy_of h0 (heap w)) done ps ->
    Forall (fun val => exists x der,
              objspace val = Some (RX509Cert x) /\
              cells h0 !! x = Some (NX509 der)) elts ->
    (length elts <= room (heap w))%nat ->
    exists w' ps',
      ary2sk_loop BUFSIZ full reason objspace sk elts w = (Val tt, w') /\
      building h0 sk ps' (heap w') /\
      Forall2 (copy_of h0 (heap w')) (done ++ elts) ps' /\
      set_heap h0 w' = set_heap h0 w /\
      (room (heap w') + length elts = room (heap w))%nat.
Proof.
  induction elts as [|val elts IH]; intros done ps w Hb Hdone Helts Hroom.
  - exists w, ps. rewrite app_nil_r. cbn [length].
    split; [reflexivity|]. split; [exact Hb|]. split; [exact Hdone|].
    split; [reflexivity|lia].
  - inversion Helts as [|? ? (x & der & Hval & Hx) Helts']; subst.
    cbn [ary2sk_loop].
    assert (Hcert : is_X509Cert objspace val = true)
      by (unfold is_X509Cert; now rewrite Hval).
    rewrite Hcert. cbn [negb].
    rewrite (ST_bind_val (mret tt) _ w tt w) by reflexivity.
    destruct (room (heap w)) as [|r] eqn:Er; [cbn in Hroom; lia|].
    destruct (ary2sk_step BUFSIZ full reason objspace h0 sk ps w val x der r
                Hb Hval Hx Er) as (w1 & Hb1 & Hr1 & Hw1 & Estep).
    pose proof (ary2sk_step_heap h0 sk ps w val x der r Hb Hval Hx Er) as Eh.
    rewrite Estep in Eh. injection Eh as Ew1.
    destruct (fresh_addr_spec (heap w)) as [Hnull Hfresh].
    set (p := fresh_addr (heap w)) in *.
    destruct Hb as (Hsk & Hsk0 & Hnd & Hps & Hother & Hrm).
    assert (Hkeep : forall q, q ≠ sk -> q ≠ p ->
              cells (heap w1) !! q = cells (heap w) !! q).
    { intros q Hq1 Hq2. rewrite Ew1. cbn [heap set_heap cells].
      rewrite lookup_insert_ne by congruence.
      apply lookup_insert_ne. congruence. }
    assert (Hnew : cells (heap w1) !! p = Some (NX509 der)).
    { rewrite Ew1. cbn [heap set_heap cells].
      rewrite lookup_insert_ne by congruence. apply lookup_insert_eq. }
    assert (Hdone1 : Forall2 (copy_of h0 (heap w1)) (done ++ [val]) (ps ++ [p])).
    { apply Forall2_app.
      - eapply Forall2_impl; [exact Hdone|].
        intros v q (x' & d' & Hv & Hx' & Hq). exists x', d'.
        split; [exact Hv|]. split; [exact Hx'|].
        rewrite Hkeep; [exact Hq|congruence|congruence].
      - constructor; [|constructor]. exists x, der. auto. }
    assert (E2 : forall k : M unit,
               (x509 ← DupX509CertPtr BUFSIZ full reason objspace val;
                _ ← sk_X509_push sk x509; k) w = k w1).
    { intros k. revert Estep.
      unfold mbind, ST_mbind, ST_bind.
      destruct (DupX509CertPtr BUFSIZ full reason objspace val w) as [[p'|e|f] w2];
        [|discriminate..].
      destruct (sk_X509_push sk p' w2) as [[[]|e|f] w3]; [|discriminate..].
      intros E. injection E as ->. reflexivity. }
    rewrite E2.
    destruct (IH (done ++ [val]) (ps ++ [p]) w1 Hb1 Hdone1 Helts')
      as (w' & ps' & E & Hb' & Hc' & Hw' & Hr').
    { cbn [length] in Hroom. lia. }
    exists w', ps'. rewrite <- app_assoc in Hc'. cbn [app] in Hc'.
    split; [exact E|]. split; [exact Hb'|]. split; [exact Hc'|].
    split; [congruence|]. cbn [length]. lia.
Qed.

(** X20: an array of certificates is converted in order, by copies.  When
    every element is a certificate with a live native certificate and the
    allocator can serve the stack and one duplicate per element, the
    converter returns a new stack that has one element per element of the
    array, in the same order; each element is a newly allocated native
    certificate (an address that was free, hence none of the originals)
    holding the content of its original, and all are distinct; what was
    on the native heap is still there, and nothing else of the state has
    changed. *)
Theorem ary2sk_converts_in_order ary elts w :
  objspace ary = Some (RArray elts) ->
  Forall (fun val => exists x der,
            objspace val = Some (RX509Cert x) /\
            cells (heap w) !! x = Some (NX509 der)) elts ->
  (length elts < room (heap w))%nat ->
  exists sk ps w',
    ossl_x509_ary2sk BUFSIZ full reason objspace ary w = (Val sk, w') /\
    sk ≠ NULL /\ cells (heap w) !! sk = None /\
    cells (heap w') !! sk = Some (NStack ps) /\
    Forall2 (copy_of (heap w) (heap w')) elts ps /\
    NoDup ps /\
    (forall p, p ∈ ps -> cells (heap w) !! p = None) /\
    (forall i c, cells (heap w) !! i = Some c -> cells (heap w') !! i = Some c) /\
    (room (heap w') + S (length elts) = room (heap w))%nat /\
    set_heap (heap w) w' = w.
Proof.
  intros Hary Helts Hroom.
  unfold ossl_x509_ary2sk, Check_Type_ARRAY. rewrite Hary.
  rewrite (ST_bind_val (mret elts) _ w _ w) by reflexivity.
  destruct (room (heap w)) as [|r] eqn:Er; [lia|].
  destruct (fresh_addr_spec (heap w)) as [Hnull Hfresh].
  set (sk := fresh_addr (heap w)) in *.
  set (h1 := Heap (<[sk := NStack []]> (cells (heap w))) r).
  assert (Hnew : sk_X509_new_null w = (Val sk, set_heap h1 w)).
  { unfold sk_X509_new_null, alloc. rewrite Er. reflexivity. }
  rewrite (ST_bind_val _ _ _ _ _ Hnew).
  destruct (Nat.eqb_spec sk NULL) as [E|_]; [contradiction|].
  rewrite (ST_bind_val (mret tt) _ _ tt (set_heap h1 w)) by reflexivity.
  assert (Hb : building (heap w) sk [] (heap (set_heap h1 w))).
  { unfold building, h1. cbn [heap set_heap cells room length].
    split; [apply lookup_insert_eq|]. split; [assumption|].
    split; [apply NoDup_nil_2|]. split.
    - intros p Hp. apply elem_of_nil in Hp. contradiction.
    - split; [|lia]. intros i Hi _. apply lookup_insert_ne. congruence. }
  destruct (ary2sk_loop_builds (heap w) sk elts [] [] (set_heap h1 w) Hb)
    as (w' & ps & E & Hb' & Hc & Hw & Hr).
  { constructor. }
  { exact Helts. }
  { cbn [heap set_heap room h1]. lia. }
  rewrite (ST_bind_val _ _ _ _ _ E).
  exists sk, ps, w'.
  destruct Hb' as (Hsk & Hsk0 & Hnd & Hps & Hother & Hrm).
  split; [reflexivity|]. split; [exact Hnull|]. split; [exact Hfresh|].
  split; [exact Hsk|]. split; [exact Hc|]. split; [exact Hnd|].
  split; [intros p Hp; apply (Hps p Hp)|]. split.
  - intros i c Hi. rewrite Hother; [exact Hi|congruence|].
    intros Hin. destruct (Hps i Hin) as [Hn _]. congruence.
  - split.
    + cbn [heap set_heap room h1] in Hr.
      apply Forall2_length in Hc. cbn [app] in Hc. lia.
    + rewrite Hw, set_heap_set_heap. apply set_heap_same.
Qed.

(** X21: an argument that is not an Array is refused with a TypeError
    before anything else happens: nothing is allocated, and the error
    queue of the native library is not read. *)
Theorem ary2sk_refuses_non_array ary w :
  (forall elts, objspace ary ≠ Some (RArray elts)) ->
  ossl_x509_ary2sk BUFSIZ full reason objspace ary w
  = (Raised (Exn rb_eTypeError (cstr "wrong argument type (expected Array)")), w).
Proof.
  intros H. unfold ossl_x509_ary2sk, Check_Type_ARRAY.
  unfold mbind, ST_mbind, ST_bind.
  destruct (objspace ary) as [[s|elts|x|]|]; try reflexivity.
  exfalso. exact (H elts eq_refl).
Qed.

(** X22: when the stack itself cannot be allocated the converter raises
    the generic library error through the error channel with no prefix,
    without looking at any element: the outcome is that of
    [ossl_raise(eOSSLError, NULL)] on the state of the entry. *)
Theorem ary2sk_without_memory ary elts w :
  objspace ary = Some (RArray elts) ->
  room (heap w) = 0%nat ->
  ossl_x509_ary2sk BUFSIZ full reason objspace ary w
  = @ossl_raise BUFSIZ full reason nat eOSSLError None w.
Proof.
  intros Hary Hroom.
  unfold ossl_x509_ary2sk, Check_Type_ARRAY. rewrite Hary.
  rewrite (ST_bind_val (mret elts) _ w _ w) by reflexivity.
  assert (Hnew : sk_X509_new_null w = (Val NULL, w)).
  { unfold sk_X509_new_null, alloc. rewrite Hroom. cbn.
    now rewrite set_heap_same. }
  rewrite (ST_bind_val _ _ _ _ _ Hnew).
  cbn [Nat.eqb NULL]. unfold ossl_raise_.
  destruct (ossl_raise_outcome BUFSIZ full reason (A:=unit) eOSSLError None w)
    as (w' & _ & [[msg E]|[f E]]).
  - rewrite (ST_bind_raised _ _ _ _ _ E).
    rewrite (ossl_raise_retype BUFSIZ full reason (A:=unit) (B:=nat)), E.
    reflexivity.
  - rewrite (ST_bind_fault _ _ _ _ _ E).
    rewrite (ossl_raise_retype BUFSIZ full reason (A:=unit) (B:=nat)), E.
    reflexivity.
Qed.

(** X23: the protected converter keeps the exception from unwinding.  On
    no input does [ossl_protect_x509_ary2sk] raise; on an array with an
    element that is no certificate it returns the captured exception
    (a nonzero status), of class [eOSSLError], and the native heap is the
    one of the entry. *)
Theorem protect_ary2sk_captures ary pre v rest w :
  (forall ary' w' e,
     fst (ossl_protect_x509_ary2sk BUFSIZ full reason objspace ary' w')
     ≠ Raised e) /\
  (objspace ary = Some (RArray (pre ++ v :: rest)) ->
   Forall (fun val => exists x der,
             objspace val = Some (RX509Cert x) /\
             cells (heap w) !! x = Some (NX509 der)) pre ->
   is_X509Cert objspace v = false ->
   (length pre < room (heap w))%nat ->
   let r := ossl_protect_x509_ary2sk BUFSIZ full reason objspace ary w in
   heap (snd r) = heap w /\
   (forall sk, fst r ≠ Val (inl sk)) /\
   (forall e, fst r = Val (inr e) -> exn_class e = eOSSLError)).
Proof.
  split.
  - intros ary' w' e. unfold ossl_protect_x509_ary2sk, rb_protect.
    destruct (ossl_x509_ary2sk BUFSIZ full reason objspace ary' w')
      as [[sk|x|f] w'']; discriminate.
  - intros Hary Hpre Hv Hroom r. unfold r, ossl_protect_x509_ary2sk, rb_protect.
    rewrite (ary2sk_rejects BUFSIZ full reason objspace ary pre v rest w)
      by assumption.
    destruct (ossl_raise_outcome BUFSIZ full reason (A:=nat) eOSSLError
                (Some not_a_cert_text) w) as (w' & Hh & [[msg E]|[f E]]);
      rewrite E; cbn [fst snd].
    + split; [exact Hh|]. split; [discriminate|].
      intros e He. injection He as <-. reflexivity.
    + split; [exact Hh|]. split; discriminate.
Qed.

End ConvertMore.

(** The array of the two certificates, on a heap with room for three
    allocations. *)
Lemma ary2sk_converts_in_order_witness :
  exists sk ps w',
    ossl_x509_ary2sk 8192 sample_error_string sample_reason_error_string
      cert_array_objspace 32 cert_world = (Val sk, w') /\
    cells (heap w') !! sk = Some (NStack ps) /\
    length ps = 2%nat /\ NoDup ps.
Proof.
  destruct (ary2sk_converts_in_order 8192 sample_error_string
              sample_reason_error_string cert_array_objspace 32 [20; 24]
              cert_world) as (sk & ps & w' & E & _ & _ & Hsk & Hc & Hnd & _).
  - reflexivity.
  - constructor; [|constructor; [|constructor]];
      exists 1%nat, (cstr "DER"); split; reflexivity.
  - cbn. lia.
  - exists sk, ps, w'. split; [exact E|]. split; [exact Hsk|].
    split; [|exact Hnd]. symmetry. apply (Forall2_length _ _ _ Hc).
Defined.

(** The integer 1 instead of an array. *)
Lemma ary2sk_refuses_non_array_witness :
  ossl_x509_ary2sk 8192 sample_error_string sample_reason_error_string
    sample_objspace (INT2FIX 1) cert_world
  = (Raised (Exn rb_eTypeError (cstr "wrong argument type (expected Array)")),
     cert_world).
Proof.
  apply (ary2sk_refuses_non_array 8192 sample_error_string
           sample_reason_error_string sample_objspace (INT2FIX 1) cert_world).
  intros elts. discriminate.
Defined.

(** The sample array when the allocator has no memory at all. *)
Lemma ary2sk_without_memory_witness :
  ossl_x509_ary2sk 8192 sample_error_string sample_reason_error_string
    sample_objspace 28 idle
  = @ossl_raise 8192 sample_error_string sample_reason_error_string nat
      eOSSLError None idle.
Proof.
  apply (ary2sk_without_memory 8192 sample_error_string
           sample_reason_error_string sample_objspace 28 [20; 24; 12; 20] idle);
    reflexivity.
Defined.

(** The sample array, whose third element is a String. *)
Lemma protect_ary2sk_captures_witness :
  heap (snd (ossl_protect_x509_ary2sk 8192 sample_error_string
               sample_reason_error_string sample_objspace 28 cert_world))
  = heap cert_world.
Proof.
  destruct (protect_ary2sk_captures 8192 sample_error_string
              sample_reason_error_string sample_objspace 28 [20; 24] 12 [20]
              cert_world) as [_ H].
  destruct H as (Hh & _).
  - reflexivity.
  - constructor; [|constructor; [|constructor]];
      exists 1%nat, (cstr "DER"); split; reflexivity.
  - reflexivity.
  - cbn. lia.
  - exact Hh.
Defined.
